(** * The TBM dashboard monitor ([TBMDataMonitor]) in Rocq

    A shallow embedding of the browser-side monitor of the TBM forecasting
    dashboard: the classification of incoming readings, the formatting of
    numbers, the per-feature reconciliation of a batch against the values
    remembered from earlier cycles, and the fetch scheduling around it.

    JavaScript numbers are IEEE 754 binary64 values, which is what Rocq's
    primitive [float] is; the JavaScript objects used as dictionaries
    ([lastValues], [lastPredictionValues]) are finite maps. *)

From Stdlib Require Import ZArith String Ascii List Floats DecimalString Lia.
From stdpp Require Import base option list gmap strings.

Set Warnings "-inexact-float,-register-all".

Local Open Scope string_scope.

(** ** JavaScript values *)

(** The values the monitor handles: what [JSON.parse] can deliver, plus
    [undefined] (the result of reading a property that is not there). *)
Inductive value : Type :=
| Undefined
| Null
| Bool (b : bool)
| Num (x : float)
| Str (s : string)
| Obj (fields : list (string * value))
| Arr (items : list value).

(** The result of [typeof]. *)
Inductive jstype := TUndefined | TObject | TBoolean | TNumber | TString.

Definition typeof (v : value) : jstype :=
  match v with
  | Undefined => TUndefined
  | Null => TObject
  | Bool _ => TBoolean
  | Num _ => TNumber
  | Str _ => TString
  | Obj _ => TObject
  | Arr _ => TObject
  end.

Definition is_object (v : value) : bool :=
  match typeof v with TObject => true | _ => false end.

(** [v === null || v === undefined] *)
Definition absent (v : value) : bool :=
  match v with
  | Undefined | Null => true
  | _ => false
  end.

Fixpoint assoc (k : string) (fs : list (string * value)) : option value :=
  match fs with
  | [] => None
  | (k', v) :: fs' => if String.eqb k k' then Some v else assoc k fs'
  end.

Definition has_key (k : string) (fs : list (string * value)) : bool :=
  match assoc k fs with Some _ => true | None => false end.

(** [v.k] for the data property names the monitor reads ([features],
    [current_value], [predicted], [value], ...): none of them is defined on
    a built-in prototype, so only an object's own fields can answer.
    [None] stands for the [TypeError] of reading a property of [null] or
    [undefined]. *)
Definition prop (v : value) (k : string) : option value :=
  match v with
  | Undefined | Null => None
  | Obj fs => Some (default Undefined (assoc k fs))
  | _ => Some Undefined
  end.

Definition decimal (n : Z) : string :=
  NilEmpty.string_of_uint (N.to_uint (Z.to_N n)).

(** A string is held as the bytes of its UTF-8 encoding, while JavaScript
    indexes a string by UTF-16 code units: a character of one to three
    bytes is one unit, a character of four bytes is a pair of surrogates.
    A surrogate on its own is held in the three-byte form of its code
    point. *)
Definition byte_of (n : N) : ascii := ascii_of_N n.

(** The three bytes of a code unit from U+0800 on. *)
Definition three_bytes (u : N) : string :=
  String (byte_of (224 + N.shiftr u 12))
    (String (byte_of (128 + N.land (N.shiftr u 6) 63))
       (String (byte_of (128 + N.land u 63)) EmptyString)).

(** The two surrogates of the character that the four bytes encode. *)
Definition surrogates (a b c d : ascii) : list string :=
  let cp := (N.shiftl (N.land (N_of_ascii a) 7) 18
             + N.shiftl (N.land (N_of_ascii b) 63) 12
             + N.shiftl (N.land (N_of_ascii c) 63) 6
             + N.land (N_of_ascii d) 63)%N in
  let v := (cp - 65536)%N in
  [three_bytes (55296 + N.shiftr v 10); three_bytes (56320 + N.land v 1023)].

(** The code units of a string, each as the string that [s[i]] is. The
    bytes are grouped by the first byte of each character; a byte below
    192 is a unit of its own, and so is a group cut short by the end of
    the string. *)
Fixpoint code_units (s : string) : list string :=
  match s with
  | EmptyString => []
  | String a s1 =>
      let n := N_of_ascii a in
      if (n <? 192)%N then String a EmptyString :: code_units s1
      else
        match s1 with
        | EmptyString => [s]
        | String b s2 =>
            if (n <? 224)%N
            then String a (String b EmptyString) :: code_units s2
            else
              match s2 with
              | EmptyString => [s]
              | String c s3 =>
                  if (n <? 240)%N
                  then String a (String b (String c EmptyString))
                         :: code_units s3
                  else
                    match s3 with
                    | EmptyString => [s]
                    | String d s4 => surrogates a b c d ++ code_units s4
                    end
              end
        end
  end.

(** [v[i]] for an array index [i]. *)
Definition at_index (v : value) (i : nat) : option value :=
  match v with
  | Undefined | Null => None
  | Arr l => Some (default Undefined (l !! i))
  | Obj fs => Some (default Undefined (assoc (decimal (Z.of_nat i)) fs))
  | Str s =>
      Some (match code_units s !! i with
            | Some u => Str u
            | None => Undefined
            end)
  | _ => Some Undefined
  end.

(** [ToBoolean] *)
Definition truthy (v : value) : bool :=
  match v with
  | Undefined | Null => false
  | Bool b => b
  | Num x => negb (PrimFloat.is_nan x || PrimFloat.is_zero x)
  | Str s => negb (String.eqb s "")
  | Obj _ | Arr _ => true
  end.

(** [a || b] *)
Definition js_or (a b : value) : value := if truthy a then a else b.

(** Results of the coercions and of the methods built on them. A parsed
    JSON object has no callable [toString]/[valueOf] of its own, so
    converting it to a primitive goes through [Object.prototype], unless an
    own field named [toString] shadows the inherited method, in which case
    the conversion throws a [TypeError]. Converting a string (or an array,
    through its joined string) to a number needs the numeric-literal
    grammar, which this development does not model: [NotModelled] marks
    those coercions, and nothing is stated about runs that reach one. *)
Inductive coerced (A : Type) : Type :=
| Val (a : A)
| TypeError
| NotModelled.
Arguments Val {A} a.
Arguments TypeError {A}.
Arguments NotModelled {A}.

(** Whether [ToString v] throws. An array is joined: [null] and [undefined]
    items give the empty string, every other item is converted in turn. *)
Fixpoint ToString_throws (v : value) : bool :=
  match v with
  | Obj fs => has_key "toString" fs
  | Arr l => existsb ToString_throws l
  | _ => false
  end.

(** [ToNumber] *)
Definition ToNumber (v : value) : coerced float :=
  match v with
  | Undefined => Val PrimFloat.nan
  | Null => Val PrimFloat.zero
  | Bool b => Val (if b then PrimFloat.one else PrimFloat.zero)
  | Num x => Val x
  | Str _ => NotModelled
  | Obj fs => if has_key "toString" fs then TypeError else Val PrimFloat.nan
  | Arr l => if existsb ToString_throws l then TypeError else NotModelled
  end.

(** ** Number formatting: [toFixed], [toExponential] *)

Module NumberFormat.

Fixpoint zeros (k : nat) : string :=
  match k with
  | O => ""
  | S k' => String "0" (zeros k')
  end.

Definition sign_prefix (s : bool) : string := if s then "-" else "".

(** The digits of [n] with a decimal point before the last [f] of them,
    padded with leading zeros up to [f + 1] digits. *)
Definition fixed_point (f : nat) (n : Z) : string :=
  let m := decimal n in
  let m := if (String.length m <=? f)%nat
           then zeros (f + 1 - String.length m) ++ m else m in
  let k := String.length m in
  if (f =? 0)%nat then m
  else substring 0 (k - f) m ++ "." ++ substring (k - f) f m.

(** The integer nearest to [p / q], the larger one on a tie. *)
Definition round_half_up (p q : Z) : Z := (2 * p + q) / (2 * q).

(** A finite non-zero binary64 value is [m * 2^e]; as a fraction: *)
Definition fraction (m : positive) (e : Z) : Z * Z :=
  if (0 <=? e)%Z then (Z.pos m * 2 ^ e, 1)%Z else (Z.pos m, 2 ^ (- e))%Z.

Definition ndigits (n : Z) : Z := Z.of_nat (String.length (decimal n)).

(** Shortest decimal representation ([Number::toString]) of an integral
    value [m * 2^e >= 10^21], which always prints in exponent form. The
    doubled bounds of the interval of reals that round to the value: *)
Definition rounds_to (m : positive) (e : Z) (v2 : Z) : bool :=
  let x2 := (2 * Z.pos m * 2 ^ e)%Z in
  let up := (2 ^ e)%Z in
  let down := if (Z.pos m =? 2 ^ 52)%Z then (2 ^ (e - 1))%Z else (2 ^ e)%Z in
  if Z.even (Z.pos m)
  then ((x2 - down <=? v2) && (v2 <=? x2 + up))%Z
  else ((x2 - down <? v2) && (v2 <? x2 + up))%Z.

(** Among [k]-digit significands, the one whose value is nearest to the
    number (the even one on a tie), if it rounds to the number. *)
Definition significand (m : positive) (e : Z) (n : Z) (k : Z) : option Z :=
  let x := (Z.pos m * 2 ^ e)%Z in
  let u := (10 ^ (n - k))%Z in
  let lo := (x / u)%Z in
  let hi := (lo + 1)%Z in
  let ok_lo := rounds_to m e (2 * lo * u) in
  let ok_hi := rounds_to m e (2 * hi * u) in
  let d_lo := (x - lo * u)%Z in
  let d_hi := (hi * u - x)%Z in
  match ok_lo, ok_hi with
  | true, true =>
      if (d_lo <? d_hi)%Z then Some lo
      else if (d_hi <? d_lo)%Z then Some hi
      else if Z.even lo then Some lo else Some hi
  | true, false => Some lo
  | false, true => Some hi
  | false, false => None
  end.

Fixpoint shortest (fuel : nat) (m : positive) (e : Z) (n : Z) (k : Z) : Z * Z :=
  match fuel with
  | O => ((Z.pos m * 2 ^ e) / 10 ^ (n - k), k)%Z
  | S fuel' =>
      match significand m e n k with
      | Some s => (s, k)
      | None => shortest fuel' m e n (k + 1)
      end
  end.

Definition toString_large (m : positive) (e : Z) : string :=
  let n := ndigits (Z.pos m * 2 ^ e) in
  let '(s, k) := shortest 17 m e n 1 in
  let '(s, n) := if (s =? 10 ^ k)%Z then (10 ^ (k - 1), n + 1)%Z else (s, n) in
  let d := decimal s in
  (if (String.length d =? 1)%nat then d
   else substring 0 1 d ++ "." ++ substring 1 (String.length d - 1) d)
  ++ "e+" ++ decimal (n - 1).

(** [Number.prototype.toFixed(f)] *)
Definition toFixed (f : nat) (x : float) : string :=
  match Prim2SF x with
  | S754_nan => "NaN"
  | S754_infinity s => sign_prefix s ++ "Infinity"
  | S754_zero _ => fixed_point f 0
  | S754_finite s m e =>
      sign_prefix s ++
      (if (1e21 <=? PrimFloat.abs x)%float then toString_large m e
       else let '(p, q) := fraction m e in
            fixed_point f (round_half_up (p * 10 ^ Z.of_nat f) q))
  end.

(** The first [k >= 1], searched upwards from [k], with [q <= p * 10^k]. *)
Fixpoint first_scale (fuel : nat) (p q k : Z) : Z :=
  match fuel with
  | O => k
  | S fuel' =>
      if (q <=? p * 10 ^ k)%Z then k else first_scale fuel' p q (k + 1)
  end.

(** The largest [e] with [10^e <= p / q]. *)
Definition floor_log10 (p q : Z) : Z :=
  if (q <=? p)%Z then ndigits (p / q) - 1
  else - first_scale 400 p q 1.

(** [Number.prototype.toExponential(f)] *)
Definition toExponential (f : nat) (x : float) : string :=
  match Prim2SF x with
  | S754_nan => "NaN"
  | S754_infinity s => sign_prefix s ++ "Infinity"
  | S754_zero _ => fixed_point f 0 ++ "e+0"
  | S754_finite s m e =>
      let '(p, q) := fraction m e in
      let e0 := floor_log10 p q in
      let fz := Z.of_nat f in
      let '(p', q') := if (e0 <=? fz)%Z then (p * 10 ^ (fz - e0), q)%Z
                       else (p, q * 10 ^ (e0 - fz))%Z in
      let n0 := round_half_up p' q' in
      let '(n, e10) := if (n0 =? 10 ^ (fz + 1))%Z then (10 ^ fz, e0 + 1)%Z
                       else (n0, e0) in
      sign_prefix s ++ fixed_point f n ++ "e"
        ++ (if (0 <=? e10)%Z then "+" else "-") ++ decimal (Z.abs e10)
  end.

End NumberFormat.

(** ** Classification and display of one reading *)

Inductive dataStatus := Valid | Predicted | Missing | Error.

(** The status as it is spliced into a class name. *)
Definition status_name (st : dataStatus) : string :=
  match st with
  | Valid => "valid"
  | Predicted => "predicted"
  | Missing => "missing"
  | Error => "error"
  end.

(** A property of a value already known not to be [null] or [undefined]. *)
Definition member (v : value) (k : string) : value :=
  default Undefined (prop v k).

Definition is_true (v : value) : bool :=
  match v with Bool true => true | _ => false end.

Definition is_undefined (v : value) : bool :=
  match v with Undefined => true | _ => false end.

(** [typeof v === 'number' && !isNaN(v)] *)
Definition is_number_not_nan (v : value) : bool :=
  match v with Num x => negb (PrimFloat.is_nan x) | _ => false end.

(** [determineDataStatus(value)] *)
Definition determineDataStatus (v : value) : dataStatus :=
  if absent v then Missing
  else if is_object v && is_true (member v "predicted") then Predicted
  else if is_number_not_nan v then Valid
  else if is_object v && negb (is_undefined (member v "value")) then Valid
  else Error.

(** [formatValue(value)] *)
Definition formatValue (v : value) : string :=
  match v with
  | Num x =>
      if PrimFloat.is_nan x || negb (PrimFloat.is_finite x) then "--"
      else if (1e10 <? PrimFloat.abs x)%float then NumberFormat.toExponential 2 x
      else if (1000 <=? x)%float then NumberFormat.toFixed 0 x
      else if (1 <=? x)%float then NumberFormat.toFixed 2 x
      else NumberFormat.toFixed 4 x
  | _ => "--"
  end.

(** ** The feature catalogue ([feature_config.js]) *)

Record feature := {
  feature_id : nat;
  feature_name : string;
  feature_transmission : string;
  feature_unit : string;
  feature_status : string
}.

Definition mk_feature (i : nat) (n t u : string) : feature :=
  {| feature_id := i; feature_name := n; feature_transmission := t;
     feature_unit := u; feature_status := "found" |}.

Definition FEATURE_CONFIG : list feature := [
  mk_feature 1 "贯入度" "date120" "mm/rpm";
  mk_feature 2 "推进区间的压力（上）" "date16" "MPa";
  mk_feature 3 "推进区间的压力（右）" "date17" "MPa";
  mk_feature 4 "推进区间的压力（下）" "date18" "MPa";
  mk_feature 5 "推进区间的压力（左）" "date19" "MPa";
  mk_feature 6 "土舱土压（右）" "date29" "MPa";
  mk_feature 7 "土舱土压（右下）" "date30" "MPa";
  mk_feature 8 "土舱土压（左）" "date31" "MPa";
  mk_feature 9 "土舱土压（左下）" "date32" "MPa";
  mk_feature 10 "No.16推进千斤顶速度" "date7" "mm/min";
  mk_feature 11 "No.4推进千斤顶速度" "date8" "mm/min";
  mk_feature 12 "No.8推进千斤顶速度" "date9" "mm/min";
  mk_feature 13 "No.12推进千斤顶速度" "date10" "mm/min";
  mk_feature 14 "推进油缸总推力" "date12" "kN";
  mk_feature 15 "No.16推进千斤顶行程" "date3" "mm";
  mk_feature 16 "No.4推进千斤顶行程" "date4" "mm";
  mk_feature 17 "No.8推进千斤顶行程" "date5" "mm";
  mk_feature 18 "No.12推进千斤顶行程" "date6" "mm";
  mk_feature 19 "推进平均速度" "date78" "mm/min";
  mk_feature 20 "刀盘转速" "date76" "r/min";
  mk_feature 21 "刀盘扭矩" "date77" "kN·m";
  mk_feature 22 "No.1刀盘电机扭矩" "date47" "%";
  mk_feature 23 "No.2刀盘电机扭矩" "date48" "%";
  mk_feature 24 "No.3刀盘电机扭矩" "date49" "%";
  mk_feature 25 "No.4刀盘电机扭矩" "date50" "%";
  mk_feature 26 "No.5刀盘电机扭矩" "date51" "%";
  mk_feature 27 "No.6刀盘电机扭矩" "date52" "%";
  mk_feature 28 "No.7刀盘电机扭矩" "date53" "%";
  mk_feature 29 "No.8刀盘电机扭矩" "date54" "%";
  mk_feature 30 "No.9刀盘电机扭矩" "date55" "%";
  mk_feature 31 "No.10刀盘电机扭矩" "date56" "%"
].

(** ** The monitor and the page *)

(** A table cell or other element: its [textContent] and [className]. *)
Record cell := { textContent : string; className : string }.

(** The four cells created per feature by [renderDataTable], found again
    through their ids [t-prediction-N], [value-N], [change-N] and
    [prediction-N]. *)
Record row := {
  tPredictionCell : cell;
  valueCell : cell;
  changeCell : cell;
  predictionCell : cell
}.

(** What [statusText] shows. The collecting message splices the step count
    of the batch into its text. *)
Inductive statusLabel :=
| NoLabel
| LabelConnected
| LabelConnecting
| LabelError
| LabelReady
| LabelCollecting (stepCount : value).

(** The page: the table body keyed by feature id, the status indicator, the
    two counters, the machine status and the loading overlay. Clock texts
    ([lastUpdate], [currentTime]) and the look of the pause button are left
    out. *)
Record page := {
  rows : gmap nat row;
  statusDot : string;
  statusText : statusLabel;
  validCountText : option nat;
  missingCountText : option nat;
  machineStatus : option cell;
  loadingShown : bool
}.

(** The fields of a [TBMDataMonitor]. [updateInterval] tells whether an
    interval timer is installed. *)
Record monitor := {
  isRunning : bool;
  updateInterval : bool;
  lastData : value;
  paused : bool;
  lastValues : gmap nat value;
  lastPredictionValues : gmap nat value
}.

(** The monitor, the page it draws on, and the number of [fetchData] calls
    whose request has not been answered yet. *)
Record world := {
  this : monitor;
  document : page;
  inflight : nat
}.

Definition with_this (f : monitor -> monitor) (w : world) : world :=
  {| this := f (this w); document := document w; inflight := inflight w |}.

Definition with_document (f : page -> page) (w : world) : world :=
  {| this := this w; document := f (document w); inflight := inflight w |}.

Definition with_inflight (f : nat -> nat) (w : world) : world :=
  {| this := this w; document := document w; inflight := f (inflight w) |}.

Definition set_lastValues (m : gmap nat value) (t : monitor) : monitor :=
  {| isRunning := isRunning t; updateInterval := updateInterval t;
     lastData := lastData t; paused := paused t;
     lastValues := m; lastPredictionValues := lastPredictionValues t |}.

Definition set_lastPredictionValues (m : gmap nat value) (t : monitor) : monitor :=
  {| isRunning := isRunning t; updateInterval := updateInterval t;
     lastData := lastData t; paused := paused t;
     lastValues := lastValues t; lastPredictionValues := m |}.

Definition set_lastData (v : value) (t : monitor) : monitor :=
  {| isRunning := isRunning t; updateInterval := updateInterval t;
     lastData := v; paused := paused t;
     lastValues := lastValues t;
     lastPredictionValues := lastPredictionValues t |}.

Definition set_paused (b : bool) (t : monitor) : monitor :=
  {| isRunning := isRunning t; updateInterval := updateInterval t;
     lastData := lastData t; paused := b;
     lastValues := lastValues t;
     lastPredictionValues := lastPredictionValues t |}.

Definition set_running (run timer : bool) (t : monitor) : monitor :=
  {| isRunning := run; updateInterval := timer;
     lastData := lastData t; paused := paused t;
     lastValues := lastValues t;
     lastPredictionValues := lastPredictionValues t |}.

Definition set_rows (m : gmap nat row) (p : page) : page :=
  {| rows := m; statusDot := statusDot p; statusText := statusText p;
     validCountText := validCountText p;
     missingCountText := missingCountText p;
     machineStatus := machineStatus p; loadingShown := loadingShown p |}.

Definition set_status (dot : string) (l : statusLabel) (p : page) : page :=
  {| rows := rows p; statusDot := dot; statusText := l;
     validCountText := validCountText p;
     missingCountText := missingCountText p;
     machineStatus := machineStatus p; loadingShown := loadingShown p |}.

Definition set_counts (v m : nat) (p : page) : page :=
  {| rows := rows p; statusDot := statusDot p; statusText := statusText p;
     validCountText := Some v; missingCountText := Some m;
     machineStatus := machineStatus p; loadingShown := loadingShown p |}.

Definition set_machineStatus (c : cell) (p : page) : page :=
  {| rows := rows p; statusDot := statusDot p; statusText := statusText p;
     validCountText := validCountText p;
     missingCountText := missingCountText p;
     machineStatus := Some c; loadingShown := loadingShown p |}.

Definition set_loading (b : bool) (p : page) : page :=
  {| rows := rows p; statusDot := statusDot p; statusText := statusText p;
     validCountText := validCountText p;
     missingCountText := missingCountText p;
     machineStatus := machineStatus p; loadingShown := b |}.

(** ** Methods as state transformers that may throw *)

(** A call runs to completion ([Done]), or is cut short by an exception
    ([Thrown], keeping what was written before it), or reaches a coercion
    that is not modelled ([Stuck]). *)
Inductive outcome (A : Type) : Type :=
| Done (a : A) (w : world)
| Thrown (w : world)
| Stuck.
Arguments Done {A} a w.
Arguments Thrown {A} w.
Arguments Stuck {A}.

Definition M (A : Type) : Type := world -> outcome A.

Definition ret {A} (a : A) : M A := fun w => Done a w.

Definition bind {A B} (m : M A) (k : A -> M B) : M B := fun w =>
  match m w with
  | Done a w' => k a w'
  | Thrown w' => Thrown w'
  | Stuck => Stuck
  end.

#[global] Instance M_ret : MRet M := @ret.
#[global] Instance M_bind : MBind M := fun A B k m => bind m k.

Definition get : M world := fun w => Done w w.
Definition modify (f : world -> world) : M unit := fun w => Done tt (f w).
Definition throw {A} : M A := fun w => Thrown w.

Definition coerce {A} (c : coerced A) : M A := fun w =>
  match c with
  | Val a => Done a w
  | TypeError => Thrown w
  | NotModelled => Stuck
  end.

(** Evaluating [`${v}`] for its effect only. *)
Definition stringify (v : value) : M unit :=
  if ToString_throws v then throw else ret tt.

(** [xs.forEach(f)] *)
Fixpoint forEach {A} (xs : list A) (f : A -> M unit) : M unit :=
  match xs with
  | [] => ret tt
  | x :: xs' => f x;; forEach xs' f
  end.

(** [this.lastValues[k]] and the like: a missing key reads [undefined]. *)
Definition lookup_js (m : gmap nat value) (k : nat) : value :=
  default Undefined (m !! k).

Fixpoint foldM {A B} (f : A -> B -> M B) (xs : list A) (b : B) : M B :=
  match xs with
  | [] => ret b
  | x :: xs' => b' ← f x b; foldM f xs' b'
  end.

(** Reading [v.k] inside a method: a [TypeError] when [v] is [null] or
    [undefined]. *)
Definition read (v : value) (k : string) : M value :=
  match prop v k with
  | Some x => ret x
  | None => throw
  end.

Inductive cellId := TPredictionId | ValueId | ChangeId | PredictionId.

Definition put_cell (k : cellId) (c : cell) (r : row) : row :=
  match k with
  | TPredictionId =>
      {| tPredictionCell := c; valueCell := valueCell r;
         changeCell := changeCell r; predictionCell := predictionCell r |}
  | ValueId =>
      {| tPredictionCell := tPredictionCell r; valueCell := c;
         changeCell := changeCell r; predictionCell := predictionCell r |}
  | ChangeId =>
      {| tPredictionCell := tPredictionCell r; valueCell := valueCell r;
         changeCell := c; predictionCell := predictionCell r |}
  | PredictionId =>
      {| tPredictionCell := tPredictionCell r; valueCell := valueCell r;
         changeCell := changeCell r; predictionCell := c |}
  end.

Definition get_cell (k : cellId) (r : row) : cell :=
  match k with
  | TPredictionId => tPredictionCell r
  | ValueId => valueCell r
  | ChangeId => changeCell r
  | PredictionId => predictionCell r
  end.

(** Setting [textContent] and [className] of the cell that
    [document.getElementById] found; there is nothing to set them on, and a
    [TypeError] is thrown, when the table has no row for the feature. *)
Definition writeCell (k : cellId) (featureId : nat) (text cls : string) : M unit :=
  fun w =>
    match rows (document w) !! featureId with
    | None => Thrown w
    | Some r =>
        let c := {| textContent := text; className := cls |} in
        Done tt (with_document
                   (set_rows (<[featureId := put_cell k c r]> (rows (document w)))) w)
    end.

(** [a - b] *)
Definition js_sub (a b : value) : coerced float :=
  match ToNumber a with
  | Val x =>
      match ToNumber b with
      | Val y => Val (x - y)%float
      | TypeError => TypeError
      | NotModelled => NotModelled
      end
  | TypeError => TypeError
  | NotModelled => NotModelled
  end.

(** [Math.abs(v)] *)
Definition math_abs (v : value) : coerced float :=
  match ToNumber v with
  | Val x => Val (PrimFloat.abs x)
  | TypeError => TypeError
  | NotModelled => NotModelled
  end.

(** [updateChangeValueWithoutSaving(featureId, currentValue, changeCell)];
    the cell is the one with id [change-featureId]. The debugging line for
    the first three features converts both values to strings. *)
Definition updateChangeValueWithoutSaving (featureId : nat) (currentValue : value)
  : M unit :=
  if negb (absent currentValue) then
    w ← get;
    let lastValue := lookup_js (lastValues (this w)) featureId in
    (if (featureId <=? 3)%nat
     then stringify currentValue;; stringify lastValue
     else ret tt);;
    if negb (absent lastValue) then
      change ← coerce (js_sub currentValue lastValue);
      absLast ← coerce (math_abs lastValue);
      let changePercent := (change / absLast * 100)%float in
      if (PrimFloat.abs change <? 0.0001)%float then
        writeCell ChangeId featureId "0" "change-value no-change"
      else if (0 <? change)%float then
        writeCell ChangeId featureId
          ("+" ++ formatValue (Num change) ++ " (+"
               ++ NumberFormat.toFixed 1 changePercent ++ "%)")
          "change-value increase"
      else
        writeCell ChangeId featureId
          (formatValue (Num change) ++ " ("
               ++ NumberFormat.toFixed 1 changePercent ++ "%)")
          "change-value decrease"
    else writeCell ChangeId featureId "--" "change-value no-change"
  else writeCell ChangeId featureId "--" "change-value no-change".

(** [v === 'literal'] *)
Definition is_str (s : string) (v : value) : bool :=
  match v with Str s' => String.eqb s' s | _ => false end.

Definition record_prediction (featureId : nat) (p : value) (t : monitor) : monitor :=
  set_lastPredictionValues (<[featureId := p]> (lastPredictionValues t)) t.

(** [updateFeatureDisplayWithoutSaving(featureId, currentValue,
    currentStatus, currentSource, predictionValue, bufferReady)] *)
Definition updateFeatureDisplayWithoutSaving (featureId : nat)
    (currentValue : value) (currentStatus : dataStatus)
    (currentSource predictionValue bufferReady : value) : M unit :=
  w ← get;
  (let shown := lookup_js (lastPredictionValues (this w)) featureId in
   if negb (is_undefined shown) then
     writeCell TPredictionId featureId (formatValue shown) "data-value predicted"
   else writeCell TPredictionId featureId "--" "data-value missing");;
  (if negb (absent currentValue) then
     writeCell ValueId featureId (formatValue currentValue)
       (if is_str "api" currentSource then "data-value api-data"
        else if is_str "predicted" currentSource || is_str "simulated" currentSource
             then "data-value filled-data"
        else if is_str "cached" currentSource then "data-value cached-data"
        else "data-value " ++ status_name currentStatus)
   else writeCell ValueId featureId "--" "data-value missing");;
  updateChangeValueWithoutSaving featureId currentValue;;
  if negb (absent predictionValue) && truthy bufferReady then
    writeCell PredictionId featureId (formatValue predictionValue)
      "data-value predicted";;
    modify (with_this (record_prediction featureId predictionValue))
  else if negb (truthy bufferReady) then
    writeCell PredictionId featureId "收集数据中..." "data-value collecting"
  else writeCell PredictionId featureId "--" "data-value missing".

(** ** One reconciliation cycle: [updateData] *)

Record counts := { validCount : nat; missingCount : nat; predictedCount : nat }.

Definition count (st : dataStatus) (c : counts) : counts :=
  match st with
  | Valid =>
      {| validCount := S (validCount c); missingCount := missingCount c;
         predictedCount := predictedCount c |}
  | Predicted =>
      {| validCount := validCount c; missingCount := missingCount c;
         predictedCount := S (predictedCount c) |}
  | Missing =>
      {| validCount := validCount c; missingCount := S (missingCount c);
         predictedCount := predictedCount c |}
  | Error => c
  end.

(** [features[feature.id - 1]] *)
Definition featureData (features : value) (f : feature) : M value :=
  match at_index features (feature_id f - 1) with
  | Some v => ret v
  | None => throw
  end.

(** The body of the first loop: display one feature, then count it. *)
Definition displayFeature (features bufferReady : value) (f : feature) (c : counts)
  : M counts :=
  fd ← featureData features f;
  currentValue ← read fd "current_value";
  currentSource ← read fd "current_source";
  predictionValue ← read fd "prediction_value";
  let currentStatus := determineDataStatus currentValue in
  updateFeatureDisplayWithoutSaving (feature_id f) currentValue currentStatus
    currentSource predictionValue bufferReady;;
  ret (count currentStatus c).

Definition remember_value (featureId : nat) (v : value) (t : monitor) : monitor :=
  set_lastValues (<[featureId := v]> (lastValues t)) t.

(** The body of the second loop: remember the current value if there is
    one. *)
Definition saveFeature (features : value) (f : feature) : M unit :=
  fd ← featureData features f;
  currentValue ← read fd "current_value";
  if negb (absent currentValue)
  then modify (with_this (remember_value (feature_id f) currentValue))
  else ret tt.

(** [updateStats]: the predicted count is passed but not shown. *)
Definition updateStats (c : counts) : M unit :=
  modify (with_document (set_counts (validCount c) (missingCount c))).

(** [updateTBMStatusFromBackend(tbmStatus)] *)
Definition updateTBMStatusFromBackend (tbmStatus : value) : M unit :=
  modify (with_document (set_machineStatus
    (if is_str "active" tbmStatus
     then {| textContent := "掘进中"; className := "status-active" |}
     else {| textContent := "休息"; className := "status-rest" |}))).

Definition set_statusDot (dot : string) (p : page) : page :=
  set_status dot (statusText p) p.

Definition set_statusText (l : statusLabel) (p : page) : page :=
  set_status (statusDot p) l p.

(** [updateStepInfo(stepCount, bufferReady)] *)
Definition updateStepInfo (stepCount bufferReady : value) : M unit :=
  if truthy bufferReady then
    modify (with_document (set_status "status-dot connected" LabelReady))
  else
    modify (with_document (set_statusDot "status-dot connecting"));;
    stringify stepCount;;
    modify (with_document (set_statusText (LabelCollecting stepCount))).

Definition no_counts : counts :=
  {| validCount := 0; missingCount := 0; predictedCount := 0 |}.

(** [updateData(data)] *)
Definition updateData (data : value) : M unit :=
  if negb (truthy data) || negb (truthy (member data "features")) then ret tt
  else
    let features := member data "features" in
    let stepCount := js_or (member data "step_count") (Num 0) in
    let bufferReady := js_or (member data "buffer_ready") (Bool false) in
    c ← foldM (displayFeature features bufferReady) FEATURE_CONFIG no_counts;
    forEach FEATURE_CONFIG (saveFeature features);;
    updateStats c;;
    updateTBMStatusFromBackend (member data "tbm_status");;
    updateStepInfo stepCount bufferReady;;
    modify (with_this (set_lastData features)).

(** ** Scheduling: the timer, the buttons and [fetchData] *)

(** [updateStatus(status)]; the three statuses the monitor passes. *)
Inductive connection := Connected | Connecting | ConnectionError.

Definition connection_name (c : connection) : string :=
  match c with
  | Connected => "connected"
  | Connecting => "connecting"
  | ConnectionError => "error"
  end.

Definition updateStatus (c : connection) : M unit :=
  modify (with_document (set_statusDot ("status-dot " ++ connection_name c)));;
  modify (with_document (set_statusText
    match c with
    | Connected => LabelConnected
    | Connecting => LabelConnecting
    | ConnectionError => LabelError
    end)).

Definition showLoading : M unit := modify (with_document (set_loading true)).
Definition hideLoading : M unit := modify (with_document (set_loading false)).

(** [generateMockData()]: [rand n] is the n-th number [Math.random()]
    returns during the call. *)
Definition mockRange (u : string) : float :=
  if String.eqb u "MPa" then 20%float
  else if String.eqb u "mm/min" then 100%float
  else if String.eqb u "mm" then 1000%float
  else if String.eqb u "kN" then 10000%float
  else if String.eqb u "r/min" then 5%float
  else if String.eqb u "kN·m" then 1000%float
  else if String.eqb u "%" then 100%float
  else 100%float.

Fixpoint mockFeatures (fs : list feature) (rand : nat -> float) (n : nat)
  : list value :=
  match fs with
  | [] => []
  | f :: fs' =>
      let present := rand n in
      let scaled := rand (n + 1) in
      let flagged := rand (n + 2) in
      if (present <? 0.8)%float then
        let v := (scaled * mockRange (feature_unit f))%float in
        (if (flagged <? 0.1)%float
         then Obj [("value", Num v); ("predicted", Bool true)]
         else Num v) :: mockFeatures fs' rand (n + 3)
      else Null :: mockFeatures fs' rand (n + 1)
  end.

Definition generateMockData (rand : nat -> float) : value :=
  Obj [("features", Arr (mockFeatures FEATURE_CONFIG rand 0))].

(** [fetchData()] up to its first [await]: the request is sent. *)
Definition fetchData : M unit := modify (with_inflight S).

(** What comes back: a body that parsed as JSON, or a failure (network
    error, status that is not ok, body that does not parse). *)
Inductive response :=
| Body (data : value)
| Failed.

(** The [catch] block of [fetchData]. *)
Definition fetchData_catch (rand : nat -> float) : M unit :=
  updateStatus ConnectionError;;
  hideLoading;;
  updateData (generateMockData rand).

(** [fetchData()] from the answer on. An exception thrown by [updateData]
    inside the [try] block lands in the [catch] block like a failed
    request. *)
Definition fetchData_resume (r : response) (rand : nat -> float) : M unit :=
  fun w =>
    match r with
    | Body data =>
        match updateData data w with
        | Done _ w' => (updateStatus Connected;; hideLoading) w'
        | Thrown w' => fetchData_catch rand w'
        | Stuck => Stuck
        end
    | Failed => fetchData_catch rand w
    end.

(** [renderDataTable()] *)
Definition blank_row : row :=
  {| tPredictionCell := {| textContent := "--"; className := "data-value" |};
     valueCell := {| textContent := "--"; className := "data-value" |};
     changeCell := {| textContent := "--"; className := "change-value" |};
     predictionCell := {| textContent := "--"; className := "data-value" |} |}.

Definition renderDataTable : M unit :=
  modify (with_document (set_rows ∅));;
  forEach FEATURE_CONFIG (fun f =>
    modify (with_document (fun p =>
      set_rows (<[feature_id f := blank_row]> (rows p)) p))).

(** [startMonitoring()] *)
Definition startMonitoring : M unit :=
  modify (with_this (set_running true true));;
  fetchData.

(** [stopMonitoring()] *)
Definition stopMonitoring : M unit :=
  modify (with_this (fun t => set_running false false t)).

(** [togglePause()] *)
Definition togglePause : M unit :=
  modify (with_this (fun t => set_paused (negb (paused t)) t)).

(** [refreshData()] *)
Definition refreshData : M unit :=
  showLoading;;
  fetchData.

(** The callback given to [setInterval]. *)
Definition timerCallback : M unit :=
  w ← get;
  if negb (paused (this w)) then fetchData else ret tt.

(** The page before the script runs, and a monitor as its constructor
    leaves its fields. *)
Definition blank_page : page :=
  {| rows := ∅; statusDot := ""; statusText := NoLabel;
     validCountText := None; missingCountText := None;
     machineStatus := None; loadingShown := false |}.

Definition new_monitor : monitor :=
  {| isRunning := false; updateInterval := false; lastData := Null;
     paused := false; lastValues := ∅; lastPredictionValues := ∅ |}.

(** [new TBMDataMonitor()]: the field initialisers, then [init()]. *)
Definition init : M unit :=
  renderDataTable;;
  startMonitoring;;
  updateStatus Connecting.

Definition world_of {A} (o : outcome A) (w0 : world) : world :=
  match o with
  | Done _ w => w
  | Thrown w => w
  | Stuck => w0
  end.

Definition initial_world : world :=
  let w0 := {| this := new_monitor; document := blank_page; inflight := 0 |} in
  world_of (init w0) w0.

(** What can happen to a running page. *)
Inductive event :=
| TimerFires
| PauseClicked
| RefreshClicked
| PageUnloads
| FetchResolves (r : response) (rand : nat -> float).

(** The handler an event runs, when the event can happen at all: the timer
    fires only while installed, a request resolves only while one is
    outstanding. *)
Definition handler (e : event) (w : world) : option (M unit) :=
  match e with
  | TimerFires => if updateInterval (this w) then Some timerCallback else None
  | PauseClicked => Some togglePause
  | RefreshClicked => Some refreshData
  | PageUnloads => Some stopMonitoring
  | FetchResolves r rand =>
      match inflight w with
      | O => None
      | S _ => Some (modify (with_inflight pred);; fetchData_resume r rand)
      end
  end.

(** One event, run to completion. An exception that escapes the handler
    ends it and keeps what it had written. There is no next world when the
    event cannot happen, or when its handler reaches a coercion that is not
    modelled. *)
Definition step (e : event) (w : world) : option world :=
  match handler e w with
  | None => None
  | Some h =>
      match h w with
      | Done _ w' => Some w'
      | Thrown w' => Some w'
      | Stuck => None
      end
  end.

Fixpoint run (es : list event) (w : world) : option world :=
  match es with
  | [] => Some w
  | e :: es' =>
      match step e w with
      | Some w' => run es' w'
      | None => None
      end
  end.

(** ** The saving variants of the display methods *)

(** [updateChangeValue(featureId, currentValue, changeCell)]: as
    [updateChangeValueWithoutSaving], and a current value that is there is
    stored in [lastValues] once the change cell is written. *)
Definition updateChangeValue (featureId : nat) (currentValue : value) : M unit :=
  if negb (absent currentValue) then
    w ← get;
    let lastValue := lookup_js (lastValues (this w)) featureId in
    (if (featureId <=? 3)%nat
     then stringify currentValue;; stringify lastValue
     else ret tt);;
    (if negb (absent lastValue) then
       change ← coerce (js_sub currentValue lastValue);
       absLast ← coerce (math_abs lastValue);
       let changePercent := (change / absLast * 100)%float in
       if (PrimFloat.abs change <? 0.0001)%float then
         writeCell ChangeId featureId "0" "change-value no-change"
       else if (0 <? change)%float then
         writeCell ChangeId featureId
           ("+" ++ formatValue (Num change) ++ " (+"
                ++ NumberFormat.toFixed 1 changePercent ++ "%)")
           "change-value increase"
       else
         writeCell ChangeId featureId
           (formatValue (Num change) ++ " ("
                ++ NumberFormat.toFixed 1 changePercent ++ "%)")
           "change-value decrease"
     else writeCell ChangeId featureId "--" "change-value no-change");;
    modify (with_this (remember_value featureId currentValue))
  else writeCell ChangeId featureId "--" "change-value no-change".

(** [updateFeatureDisplay(featureId, currentValue, currentStatus,
    currentSource, predictionValue, bufferReady)] *)
Definition updateFeatureDisplay (featureId : nat)
    (currentValue : value) (currentStatus : dataStatus)
    (currentSource predictionValue bufferReady : value) : M unit :=
  w ← get;
  (let shown := lookup_js (lastPredictionValues (this w)) featureId in
   if negb (is_undefined shown) then
     writeCell TPredictionId featureId (formatValue shown) "data-value predicted"
   else writeCell TPredictionId featureId "--" "data-value missing");;
  (if negb (absent currentValue) then
     writeCell ValueId featureId (formatValue currentValue)
       (if is_str "api" currentSource then "data-value api-data"
        else if is_str "predicted" currentSource || is_str "simulated" currentSource
             then "data-value filled-data"
        else if is_str "cached" currentSource then "data-value cached-data"
        else "data-value " ++ status_name currentStatus)
   else writeCell ValueId featureId "--" "data-value missing");;
  updateChangeValue featureId currentValue;;
  if negb (absent predictionValue) && truthy bufferReady then
    writeCell PredictionId featureId (formatValue predictionValue)
      "data-value predicted";;
    modify (with_this (record_prediction featureId predictionValue))
  else if negb (truthy bufferReady) then
    writeCell PredictionId featureId "收集数据中..." "data-value collecting"
  else writeCell PredictionId featureId "--" "data-value missing".

(** ** The stand-in prediction model *)

(** [Math.max(a, b)] and [Math.min(a, b)] on numbers: [NaN] if either is,
    and [+0] counts as larger than [-0]. *)
Definition is_neg_zero (x : float) : bool :=
  PrimFloat.is_zero x && PrimFloat.get_sign x.

Definition Math_max (a b : float) : float :=
  if PrimFloat.is_nan a || PrimFloat.is_nan b then PrimFloat.nan
  else if (a <? b)%float then b
  else if (b <? a)%float then a
  else if is_neg_zero a then b
  else a.

Definition Math_min (a b : float) : float :=
  if PrimFloat.is_nan a || PrimFloat.is_nan b then PrimFloat.nan
  else if (a <? b)%float then a
  else if (b <? a)%float then b
  else if is_neg_zero b then b
  else a.

(** [v[featureId - 1]] for any feature id, 0 included, where the index
    is -1 and only an object can have such a key. *)
Definition at_offset (v : value) (featureId : nat) : option value :=
  match featureId with
  | O =>
      match v with
      | Undefined | Null => None
      | Obj fs => Some (default Undefined (assoc "-1" fs))
      | _ => Some Undefined
      end
  | S k => at_index v k
  end.

(** [typeof v === 'object' ? v.value : v], for a [v] that is not [null]. *)
Definition unwrap (v : value) : value :=
  if is_object v then member v "value" else v.

(** [getHistoricalValue(featureId)] *)
Definition getHistoricalValue (t : monitor) (featureId : nat) : value :=
  if truthy (lastData t) then
    match at_offset (lastData t) featureId with
    | Some Null | None => Null
    | Some lastValue => unwrap lastValue
    end
  else Null.

(** [getDefaultValue(featureId)]: a [TypeError] when the catalogue has no
    feature at [featureId - 1]. *)
Definition getDefaultValue (featureId : nat) : coerced float :=
  match featureId with
  | O => TypeError
  | S k =>
      match FEATURE_CONFIG !! k with
      | None => TypeError
      | Some f =>
          let u := feature_unit f in
          Val (if String.eqb u "MPa" then 10%float
               else if String.eqb u "mm/min" then 50%float
               else if String.eqb u "mm" then 500%float
               else if String.eqb u "mm/rpm" then 15%float
               else if String.eqb u "kN" then 5000%float
               else if String.eqb u "r/min" then 2%float
               else if String.eqb u "kN·m" then 500%float
               else if String.eqb u "%" then 50%float
               else 50%float)
      end
  end.

(** [calculateTrendFactor(featureId)]; [sine] is what
    [Math.sin(Date.now() / 10000)] returns at the call. *)
Definition calculateTrendFactor (t : monitor) (featureId : nat) (sine : float)
  : float :=
  if negb (truthy (lastData t)) then 0%float
  else
    match at_offset (lastData t) featureId with
    | Some Null | Some Undefined | None => 0%float
    | Some _ => (sine * 0.1)%float
    end.

(** The value the prediction starts from. *)
Definition baseValue_of (t : monitor) (featureId : nat) (currentValue : value)
  : coerced value :=
  if negb (absent currentValue) then Val (unwrap currentValue)
  else
    let h := getHistoricalValue t featureId in
    if truthy h then Val h
    else match getDefaultValue featureId with
         | Val x => Val (Num x)
         | TypeError => TypeError
         | NotModelled => NotModelled
         end.

(** The clamping at the end of [generateModelPrediction]. *)
Definition clamp (base prediction : float) : float :=
  let minValue := Math_max 0 (base * 0.5) in
  let maxValue := (base * 1.5)%float in
  Math_max minValue (Math_min maxValue prediction).

(** [generateModelPrediction(featureId, currentValue)]; [random] is what
    [Math.random()] returns at the call. *)
Definition generateModelPrediction (t : monitor) (featureId : nat)
    (currentValue : value) (random sine : float) : coerced float :=
  match baseValue_of t featureId currentValue with
  | Val baseValue =>
      let trendFactor := calculateTrendFactor t featureId sine in
      let randomFactor := (0.05 * (random - 0.5) * 2)%float in
      match ToNumber baseValue with
      | Val base =>
          Val (clamp base (base * (1 + trendFactor + randomFactor))%float)
      | TypeError => TypeError
      | NotModelled => NotModelled
      end
  | TypeError => TypeError
  | NotModelled => NotModelled
  end.

(** ** The earlier revision of the monitor *)

(** The earlier [TBMDataMonitor] has the same [determineDataStatus]; its
    [formatValue] knows neither the infinities nor the exponent form. *)
Module Legacy.

(** [formatValue(value)] *)
Definition formatValue (v : value) : string :=
  match v with
  | Num x =>
      if PrimFloat.is_nan x then "--"
      else if (1000 <=? x)%float then NumberFormat.toFixed 0 x
      else if (1 <=? x)%float then NumberFormat.toFixed 2 x
      else NumberFormat.toFixed 4 x
  | _ => "--"
  end.

End Legacy.

(** * Vocabulary of the properties *)

(** ** Formatting ([formatValue]) *)

(** [typeof v === 'number'] and the number is neither [NaN] nor infinite. *)
Definition finite_number (v : value) : bool :=
  match v with
  | Num x => PrimFloat.is_finite x
  | _ => false
  end.

(** ** What one feature's display step computes *)

(** The cells [updateFeatureDisplayWithoutSaving] writes, as functions of
    what the step reads: the batch fields of the feature and the two
    remembered values of that feature. *)

Inductive trend := NoChange | Increase | Decrease.

Definition trend_class (t : trend) : string :=
  match t with
  | NoChange => "change-value no-change"
  | Increase => "change-value increase"
  | Decrease => "change-value decrease"
  end.

(** No change below 1e-4 in magnitude, else increase or decrease. *)
Definition classify_change (change : float) : trend :=
  if (PrimFloat.abs change <? 0.0001)%float then NoChange
  else if (0 <? change)%float then Increase
  else Decrease.

(** The change cell for a change and its percentage. *)
Definition render_change (change changePercent : float) : cell :=
  {| textContent :=
       match classify_change change with
       | NoChange => "0"
       | Increase =>
           "+" ++ formatValue (Num change) ++ " (+"
               ++ NumberFormat.toFixed 1 changePercent ++ "%)"
       | Decrease =>
           formatValue (Num change) ++ " ("
               ++ NumberFormat.toFixed 1 changePercent ++ "%)"
       end;
     className := trend_class (classify_change change) |}.

(** The change cell when there is nothing to compare. *)
Definition unknown_change : cell :=
  {| textContent := "--"; className := "change-value no-change" |}.

Definition changeDisplay (featureId : nat) (currentValue lastValue : value)
  : coerced cell :=
  if absent currentValue then Val unknown_change
  else if (featureId <=? 3)%nat
          && (ToString_throws currentValue || ToString_throws lastValue)
  then TypeError
  else if absent lastValue then Val unknown_change
  else
    match js_sub currentValue lastValue, math_abs lastValue with
    | Val change, Val absLast =>
        Val (render_change change (change / absLast * 100)%float)
    | TypeError, _ => TypeError
    | NotModelled, _ => NotModelled
    | Val _, TypeError => TypeError
    | Val _, NotModelled => NotModelled
    end.

Definition tPredictionDisplay (shown : value) : cell :=
  if negb (is_undefined shown)
  then {| textContent := formatValue shown; className := "data-value predicted" |}
  else {| textContent := "--"; className := "data-value missing" |}.

Definition valueDisplay (currentValue : value) (currentStatus : dataStatus)
    (currentSource : value) : cell :=
  if negb (absent currentValue) then
    {| textContent := formatValue currentValue;
       className :=
         if is_str "api" currentSource then "data-value api-data"
         else if is_str "predicted" currentSource || is_str "simulated" currentSource
              then "data-value filled-data"
         else if is_str "cached" currentSource then "data-value cached-data"
         else "data-value " ++ status_name currentStatus |}
  else {| textContent := "--"; className := "data-value missing" |}.

(** The step records the prediction of the batch. *)
Definition records (predictionValue bufferReady : value) : bool :=
  negb (absent predictionValue) && truthy bufferReady.

Definition collecting_cell : cell :=
  {| textContent := "收集数据中..."; className := "data-value collecting" |}.

Definition predictionDisplay (predictionValue bufferReady : value) : cell :=
  if records predictionValue bufferReady then
    {| textContent := formatValue predictionValue;
       className := "data-value predicted" |}
  else if negb (truthy bufferReady) then collecting_cell
  else {| textContent := "--"; className := "data-value missing" |}.

Definition set_row (featureId : nat) (r : row) (w : world) : world :=
  with_document (set_rows (<[featureId := r]> (rows (document w)))) w.

(** The world after a display step that went through. *)
Definition displayed (featureId : nat) (currentValue : value)
    (currentStatus : dataStatus) (currentSource predictionValue bufferReady : value)
    (change : cell) (w : world) : world :=
  with_this
    (if records predictionValue bufferReady
     then record_prediction featureId predictionValue else fun t => t)
    (set_row featureId
       {| tPredictionCell :=
            tPredictionDisplay (lookup_js (lastPredictionValues (this w)) featureId);
          valueCell := valueDisplay currentValue currentStatus currentSource;
          changeCell := change;
          predictionCell := predictionDisplay predictionValue bufferReady |} w).

(** The world when the step throws in the change computation: the first
    two cells are written already. *)
Definition half_displayed (featureId : nat) (currentValue : value)
    (currentStatus : dataStatus) (currentSource : value) (r : row) (w : world)
  : world :=
  set_row featureId
    {| tPredictionCell :=
         tPredictionDisplay (lookup_js (lastPredictionValues (this w)) featureId);
       valueCell := valueDisplay currentValue currentStatus currentSource;
       changeCell := changeCell r;
       predictionCell := predictionCell r |} w.

(** ** The batch as a cycle reads it *)

(** The three fields of feature [i] in the [features] of a batch, when
    reading them does not throw. *)
Definition reading_of (features : value) (i : nat) : option (value * value * value) :=
  match at_index features (i - 1) with
  | Some fd =>
      match prop fd "current_value", prop fd "current_source",
            prop fd "prediction_value" with
      | Some cv, Some src, Some pv => Some (cv, src, pv)
      | _, _, _ => None
      end
  | None => None
  end.

Definition feature_ids : list nat := map feature_id FEATURE_CONFIG.

(** ** The two passes of a cycle *)

(** The row a display step leaves for feature [i], given the world [w] the
    cycle started from. *)
Definition row_shown (w : world) (i : nat) (cv src pv br : value) (ch : cell) : row :=
  {| tPredictionCell :=
       tPredictionDisplay (lookup_js (lastPredictionValues (this w)) i);
     valueCell := valueDisplay cv (determineDataStatus cv) src;
     changeCell := ch;
     predictionCell := predictionDisplay pv br |}.

(** Feature [i] is displayed in [w'] from the batch and from what [w]
    remembered, and its prediction is recorded if the step records. *)
Definition shown_as (F br : value) (w w' : world) (i : nat) : Prop :=
  exists cv src pv ch,
    reading_of F i = Some (cv, src, pv) /\
    changeDisplay i cv (lookup_js (lastValues (this w)) i) = Val ch /\
    rows (document w') !! i = Some (row_shown w i cv src pv br ch) /\
    lastPredictionValues (this w') !! i =
      if records pv br then Some pv else lastPredictionValues (this w) !! i.

(** What follows the two passes in [updateData]. *)
Definition cycle_tail (data : value) (c : counts) : M unit :=
  updateStats c;;
  updateTBMStatusFromBackend (member data "tbm_status");;
  updateStepInfo (js_or (member data "step_count") (Num 0))
                 (js_or (member data "buffer_ready") (Bool false));;
  modify (with_this (set_lastData (member data "features"))).

(** A batch is reconciled when it has features and [updateData] runs to
    its end. *)
Definition has_features (data : value) : bool :=
  truthy data && truthy (member data "features").

Definition reconciles (data : value) (w w' : world) : Prop :=
  has_features data = true /\ updateData data w = Done tt w'.

(** [bufferReady] as [updateData] computes it. *)
Definition bufferReady_of (data : value) : value :=
  js_or (member data "buffer_ready") (Bool false).

(** The effect of a reconciled batch on one feature of the catalogue. *)
Definition reconciled_at (data : value) (w w' : world) (i : nat) : Prop :=
  exists cv src pv ch,
    reading_of (member data "features") i = Some (cv, src, pv) /\
    changeDisplay i cv (lookup_js (lastValues (this w)) i) = Val ch /\
    rows (document w') !! i =
      Some (row_shown w i cv src pv (bufferReady_of data) ch) /\
    lastPredictionValues (this w') !! i =
      (if records pv (bufferReady_of data) then Some pv
       else lastPredictionValues (this w) !! i) /\
    lastValues (this w') !! i =
      (if absent cv then lastValues (this w) !! i else Some cv).

(** ** Sequences of cycles *)

(** Batches reconciled one after the other. *)
Inductive cycles : list value -> world -> world -> Prop :=
| cycles_nil (w : world) : cycles [] w w
| cycles_cons (d : value) (ds : list value) (w w1 w' : world) :
    reconciles d w w1 -> cycles ds w1 w' -> cycles (d :: ds) w w'.

(** The fields of feature [i] in a batch ([undefined] when they cannot be
    read, which a reconciled batch excludes). *)
Definition current_value_of (data : value) (i : nat) : value :=
  match reading_of (member data "features") i with
  | Some (cv, _, _) => cv
  | None => Undefined
  end.

Definition prediction_value_of (data : value) (i : nat) : value :=
  match reading_of (member data "features") i with
  | Some (_, _, pv) => pv
  | None => Undefined
  end.

(** The most recent value of the list that is not absent, or else what was
    known before. *)
Fixpoint most_recent (vs : list value) (known : option value) : option value :=
  match vs with
  | [] => known
  | v :: vs' => most_recent vs' (if absent v then known else Some v)
  end.

(** ** Example batches *)

(** One entry of [features], as the endpoint sends it. *)
Definition reading (cv src pv : value) : value :=
  Obj [("current_value", cv); ("current_source", src); ("prediction_value", pv)].

Definition no_reading : value := reading Null Null Null.

(** A batch whose first feature carries [first] and whose other thirty
    features carry nothing. *)
Definition batch (first : value) (ready : bool) (step : float) : value :=
  Obj [("features", Arr (first :: repeat no_reading 30));
       ("step_count", Num step);
       ("buffer_ready", Bool ready);
       ("tbm_status", Str "active")].

Definition after (data : value) (w : world) : world :=
  world_of (updateData data w) w.

Definition tick1 : value := batch (reading (Num 12.3) (Str "api") Null) false 1.
Definition tick_quiet : value := batch no_reading false 2.
Definition tick5 : value := batch (reading (Num 12.5) (Str "api") (Num 13.1)) true 5.
Definition tick6 : value := batch (reading (Num 0.7) (Str "cached") (Num 14)) true 6.

Definition world1 : world := after tick1 initial_world.
Definition world2 : world := after tick_quiet world1.
Definition world5 : world := after tick5 world2.
Definition world6 : world := after tick6 world5.

(** ** Change against the last known value *)

Definition change_cell_of (w : world) (i : nat) : option cell :=
  changeCell <$> rows (document w) !! i.

(** ** The prediction shown for the current step *)

Definition tPrediction_cell_of (w : world) (i : nat) : option cell :=
  tPredictionCell <$> rows (document w) !! i.

Definition prediction_cell_of (w : world) (i : nat) : option cell :=
  predictionCell <$> rows (document w) !! i.

(** The prediction a batch gets recorded for feature [i], if any. *)
Definition recorded (data : value) (i : nat) : option value :=
  if records (prediction_value_of data i) (bufferReady_of data)
  then Some (prediction_value_of data i) else None.


(** A batch that is not ready although it carries a prediction. *)
Definition tick_stalled : value :=
  batch (reading (Num 12.6) (Str "api") (Num 14.5)) false 6.

Definition world_stalled : world := after tick_stalled world5.
Definition world_resumed : world := after tick6 world_stalled.

(** ** Gating on [buffer_ready] *)

(** A property of the world a call ends in, whether it returns or throws. *)
Definition after_any {A} (o : outcome A) (P : world -> Prop) : Prop :=
  match o with
  | Done _ w' | Thrown w' => P w'
  | Stuck => True
  end.

(** How [lastPredictionValues] may differ between [w] and a later [w']
    within one cycle on features [F] with readiness [br]: not at all when
    [br] is falsy, and otherwise only by holding the non-absent prediction
    of the batch for a feature. *)
Definition recorded_only (F br : value) (w w' : world) : Prop :=
  (truthy br = false ->
     lastPredictionValues (this w') = lastPredictionValues (this w)) /\
  (forall i,
     lastPredictionValues (this w') !! i = lastPredictionValues (this w) !! i \/
     (truthy br = true /\
      exists cv src pv,
        reading_of F i = Some (cv, src, pv) /\ absent pv = false /\
        lastPredictionValues (this w') !! i = Some pv)).

(** ** Classification ([determineDataStatus]) *)

(** A non-absent object with a [value] field that is not [undefined]. *)
Definition carries_value (v : value) : bool :=
  is_object v && negb (is_undefined (member v "value")).

(** A non-absent object whose [predicted] is exactly [true]. *)
Definition flagged_predicted (v : value) : bool :=
  is_object v && is_true (member v "predicted").

(** ** Batches of the wrong shape *)

(** Two outcomes of a cycle that agree on the page and on the per-feature
    state. *)
Definition same_cycle (o1 o2 : outcome unit) : Prop :=
  match o1, o2 with
  | Done _ w1, Done _ w2 | Thrown w1, Thrown w2 =>
      document w1 = document w2 /\
      lastValues (this w1) = lastValues (this w2) /\
      lastPredictionValues (this w1) = lastPredictionValues (this w2)
  | Stuck, Stuck => True
  | _, _ => False
  end.

(** The batch with its [features] cut down to the first 31 entries. *)
Definition truncated (fields : list (string * value)) (l : list value) : value :=
  Obj (("features", Arr (take 31 l)) :: fields).

(** A batch of 32 entries. *)
Definition tick_long : value :=
  Obj [("features",
        Arr (reading (Num 1.5) (Str "api") (Num 2) :: repeat no_reading 31));
       ("step_count", Num 7);
       ("buffer_ready", Bool true);
       ("tbm_status", Str "active")].

Definition world_long : world := after tick_long initial_world.

(** ** What a display step can see *)

(** The world in the middle of the display pass of [tick5], when only the
    first feature has been displayed. *)
Definition world_mid : world :=
  world_of (foldM (displayFeature (member tick5 "features") (bufferReady_of tick5))
              (take 1 FEATURE_CONFIG) no_counts world2) world2.

(** ** Stopping and refreshing while a request is outstanding *)

(** The world after [stopMonitoring()]. *)
Definition stopped (w : world) : world := with_this (set_running false false) w.



Definition world_stopped_resolved : world :=
  world_of ((modify (with_inflight Nat.pred);;
             fetchData_resume (Body tick1) (fun _ => 0%float))
              (stopped initial_world))
           (stopped initial_world).

Definition world_refreshed : world :=
  with_inflight S (with_document (set_loading true) initial_world).

(** ** Saving while displaying *)

(** [this.lastValues[featureId] = currentValue] for a current value that is
    there. *)
Definition save_current (featureId : nat) (currentValue : value) : M unit :=
  if negb (absent currentValue)
  then modify (with_this (remember_value featureId currentValue))
  else ret tt.

(** ** What a cycle leaves alone *)

(** How [lastValues] may differ between [w] and a later [w'] within one
    cycle on features [F]: only by holding the non-absent current value of
    the batch for a feature. *)
Definition remembered_only (F : value) (w w' : world) : Prop :=
  forall i,
    lastValues (this w') !! i = lastValues (this w) !! i \/
    exists cv src pv,
      reading_of F i = Some (cv, src, pv) /\ absent cv = false /\
      lastValues (this w') !! i = Some cv.

(** The scheduling state and the set of table rows are the same. *)
Definition same_schedule (w w' : world) : Prop :=
  isRunning (this w') = isRunning (this w) /\
  updateInterval (this w') = updateInterval (this w) /\
  paused (this w') = paused (this w) /\
  inflight w' = inflight w /\
  dom (rows (document w')) = dom (rows (document w)).

(** A batch of 30 entries, one short of the catalogue. *)
Definition tick_short : value :=
  Obj [("features",
        Arr (reading (Num 1.5) (Str "api") (Num 2) :: repeat no_reading 29));
       ("step_count", Num 7);
       ("buffer_ready", Bool true);
       ("tbm_status", Str "active")].

(** ** Counting by status *)

Definition status_eqb (a b : dataStatus) : bool :=
  match a, b with
  | Valid, Valid | Predicted, Predicted | Missing, Missing | Error, Error => true
  | _, _ => false
  end.

(** The status of feature [i] in a batch with features [F]. *)
Definition status_in (F : value) (i : nat) : dataStatus :=
  determineDataStatus
    (match reading_of F i with Some (cv, _, _) => cv | None => Undefined end).

(** How many of the given features have status [st] in a batch with
    features [F]. *)
Definition count_status (st : dataStatus) (F : value) (ids : list nat) : nat :=
  length (List.filter (fun i => status_eqb (status_in F i) st) ids).

(** ** The fallback batch *)

(** The three shapes [generateMockData] pushes. *)
Definition mock_entry (v : value) : Prop :=
  v = Null \/ (exists x, v = Num x) \/
  exists x, v = Obj [("value", Num x); ("predicted", Bool true)].

(** What the status indicator shows. *)
Definition indicator (w : world) : string * statusLabel :=
  (statusDot (document w), statusText (document w)).

(** The indicator and the loading overlay are the same. *)
Definition same_indicator (w w' : world) : Prop :=
  indicator w' = indicator w /\
  loadingShown (document w') = loadingShown (document w).

(** The row of a feature for which the batch has nothing at all, while the
    buffer is not ready. *)
Definition empty_row (w : world) (i : nat) : row :=
  {| tPredictionCell :=
       tPredictionDisplay (lookup_js (lastPredictionValues (this w)) i);
     valueCell := {| textContent := "--"; className := "data-value missing" |};
     changeCell := unknown_change;
     predictionCell := collecting_cell |}.

(** ** Batches that always go through *)

Definition is_num (v : value) : bool :=
  match v with Num _ => true | _ => false end.

(** A batch as the endpoint describes it: features are there, every
    catalogue feature has a readable entry whose current value is a number
    or absent, and the step count can be printed. *)
Definition plain (d : value) : bool :=
  has_features d
  && negb (ToString_throws (js_or (member d "step_count") (Num 0)))
  && forallb (fun i =>
                match reading_of (member d "features") i with
                | Some (cv, _, _) => absent cv || is_num cv
                | None => false
                end) feature_ids.

(** A world whose table has its 31 rows and whose remembered values are
    all numbers. *)
Definition tidy (w : world) : Prop :=
  (forall i, 1 <= i <= 31 -> is_Some (rows (document w) !! i)) /\
  (forall i v, lastValues (this w) !! i = Some v -> is_num v = true).

(** ** The stand-in prediction model *)

(** The order of two numbers, [None] when either is [NaN]. *)
Definition order (a b : float) : option comparison :=
  SFcompare (Prim2SF a) (Prim2SF b).

(** The number the prediction is scaled from: the base value as the
    multiplications coerce it. *)
Definition base_number (t : monitor) (featureId : nat) (currentValue : value)
  : coerced float :=
  match baseValue_of t featureId currentValue with
  | Val v => ToNumber v
  | TypeError => TypeError
  | NotModelled => NotModelled
  end.

(** The lower and upper bound [generateModelPrediction] clamps with. *)
Definition minValue_of (base : float) : float := Math_max 0 (base * 0.5).
Definition maxValue_of (base : float) : float := (base * 1.5)%float.

(** * Properties *)

(** ** Formatting ([formatValue]) *)

Lemma not_finite_guard (x : float) :
  PrimFloat.is_nan x || negb (PrimFloat.is_finite x) = negb (PrimFloat.is_finite x).
Proof.
  unfold PrimFloat.is_finite.
  destruct (PrimFloat.is_nan x); reflexivity.
Qed.

(** C10. [formatValue] is a total function from values to strings. On
    anything that is not a finite number (another type, [NaN], an infinity)
    it returns the marker "--". On a finite number it returns the
    exponential form with 2 digits when the magnitude exceeds 1e10,
    otherwise 0 decimals from 1000 up, 2 decimals from 1 up, and 4 decimals
    below 1; so 13.1 is shown as "13.10". *)
Theorem formatValue_spec (v : value) :
  (finite_number v = false -> formatValue v = "--") /\
  (forall x : float, v = Num x -> PrimFloat.is_finite x = true ->
     formatValue v =
       if (1e10 <? PrimFloat.abs x)%float then NumberFormat.toExponential 2 x
       else if (1000 <=? x)%float then NumberFormat.toFixed 0 x
       else if (1 <=? x)%float then NumberFormat.toFixed 2 x
       else NumberFormat.toFixed 4 x) /\
  formatValue (Num 13.1) = "13.10".
Proof.
  split; [| split].
  - destruct v; simpl; try reflexivity.
    intros Hfin. rewrite not_finite_guard, Hfin. reflexivity.
  - intros x -> Hfin. simpl. rewrite not_finite_guard, Hfin. reflexivity.
  - vm_compute. reflexivity.
Qed.

Lemma formatValue_spec_witness :
  formatValue (Str "n/a") = "--" /\
  formatValue (Num 2e10) = NumberFormat.toExponential 2 2e10.
Proof.
  split.
  - apply (proj1 (formatValue_spec (Str "n/a"))). reflexivity.
  - apply (proj1 (proj2 (formatValue_spec (Num 2e10))) 2e10%float);
      reflexivity.
Defined.

(** ** What one feature's display step computes *)

Ltac run_monad :=
  unfold mbind, M_bind, bind, mret, M_ret, ret, modify, get, throw,
    coerce, stringify in *.

Lemma set_row_twice (i : nat) (r1 r2 : row) (w : world) :
  set_row i r2 (set_row i r1 w) = set_row i r2 w.
Proof.
  unfold set_row, with_document, set_rows. simpl.
  by rewrite insert_insert_eq.
Qed.

Lemma writeCell_row (k : cellId) (i : nat) (t c : string) (r : row) (w : world) :
  rows (document w) !! i = Some r ->
  writeCell k i t c w =
    Done tt (set_row i (put_cell k {| textContent := t; className := c |} r) w).
Proof. intros H. unfold writeCell. rewrite H. reflexivity. Qed.

Lemma writeCell_no_row (k : cellId) (i : nat) (t c : string) (w : world) :
  rows (document w) !! i = None -> writeCell k i t c w = Thrown w.
Proof. intros H. unfold writeCell. rewrite H. reflexivity. Qed.

Lemma set_row_lookup (i : nat) (r : row) (w : world) :
  rows (document (set_row i r w)) !! i = Some r.
Proof. unfold set_row. simpl. apply lookup_insert_eq. Qed.

Lemma updateChangeValueWithoutSaving_eq (i : nat) (cv : value) (r : row) (w : world) :
  rows (document w) !! i = Some r ->
  updateChangeValueWithoutSaving i cv w =
    match changeDisplay i cv (lookup_js (lastValues (this w)) i) with
    | Val c => Done tt (set_row i (put_cell ChangeId c r) w)
    | TypeError => Thrown w
    | NotModelled => Stuck
    end.
Proof.
  intros Hr. unfold updateChangeValueWithoutSaving, changeDisplay.
  destruct (absent cv) eqn:Hcv; simpl.
  { by rewrite (writeCell_row _ _ _ _ r). }
  run_monad.
  destruct (i <=? 3)%nat eqn:Hi; simpl.
  - destruct (ToString_throws cv); simpl; [reflexivity |].
    destruct (ToString_throws (lookup_js (lastValues (this w)) i)); simpl;
      [reflexivity |].
    destruct (absent (lookup_js (lastValues (this w)) i)); simpl.
    { by rewrite (writeCell_row _ _ _ _ r). }
    destruct (js_sub cv (lookup_js (lastValues (this w)) i)); try reflexivity.
    destruct (math_abs (lookup_js (lastValues (this w)) i)); try reflexivity.
    unfold render_change, classify_change.
    destruct (PrimFloat.abs a <? 0.0001)%float;
      [by rewrite (writeCell_row _ _ _ _ r) |].
    destruct (0 <? a)%float; by rewrite (writeCell_row _ _ _ _ r).
  - destruct (absent (lookup_js (lastValues (this w)) i)); simpl.
    { by rewrite (writeCell_row _ _ _ _ r). }
    destruct (js_sub cv (lookup_js (lastValues (this w)) i)); try reflexivity.
    destruct (math_abs (lookup_js (lastValues (this w)) i)); try reflexivity.
    unfold render_change, classify_change.
    destruct (PrimFloat.abs a <? 0.0001)%float;
      [by rewrite (writeCell_row _ _ _ _ r) |].
    destruct (0 <? a)%float; by rewrite (writeCell_row _ _ _ _ r).
Qed.

Lemma updateFeatureDisplayWithoutSaving_eq (i : nat) (cv : value) (st : dataStatus)
    (src pv br : value) (r : row) (w : world) :
  rows (document w) !! i = Some r ->
  updateFeatureDisplayWithoutSaving i cv st src pv br w =
    match changeDisplay i cv (lookup_js (lastValues (this w)) i) with
    | Val c => Done tt (displayed i cv st src pv br c w)
    | TypeError => Thrown (half_displayed i cv st src r w)
    | NotModelled => Stuck
    end.
Proof.
  intros Hr. unfold updateFeatureDisplayWithoutSaving.
  unfold mbind at 1, M_bind, bind at 1, get.
  set (shown := lookup_js (lastPredictionValues (this w)) i).
  set (w1 := set_row i (put_cell TPredictionId (tPredictionDisplay shown) r) w).
  assert (H1 : (if negb (is_undefined shown)
                then writeCell TPredictionId i (formatValue shown) "data-value predicted"
                else writeCell TPredictionId i "--" "data-value missing") w
               = Done tt w1).
  { unfold w1, tPredictionDisplay.
    destruct (negb (is_undefined shown)); by rewrite (writeCell_row _ _ _ _ r). }
  unfold mbind at 1, M_bind, bind at 1. rewrite H1. clear H1.
  set (r1 := put_cell TPredictionId (tPredictionDisplay shown) r).
  set (w2 := set_row i (put_cell ValueId (valueDisplay cv st src) r1) w).
  assert (H2 : (if negb (absent cv)
     then writeCell ValueId i (formatValue cv)
            (if is_str "api" src then "data-value api-data"
             else if is_str "predicted" src || is_str "simulated" src
                  then "data-value filled-data"
             else if is_str "cached" src then "data-value cached-data"
             else "data-value " ++ status_name st)
     else writeCell ValueId i "--" "data-value missing") w1 = Done tt w2).
  { unfold w2, valueDisplay.
    destruct (negb (absent cv));
      rewrite (writeCell_row _ _ _ _ r1) by apply set_row_lookup;
      unfold w1; by rewrite set_row_twice. }
  unfold mbind at 1, M_bind, bind at 1. rewrite H2. clear H2.
  set (r2 := put_cell ValueId (valueDisplay cv st src) r1).
  unfold mbind at 1, M_bind, bind at 1.
  rewrite (updateChangeValueWithoutSaving_eq i cv r2 w2) by apply set_row_lookup.
  change (lastValues (this w2)) with (lastValues (this w)).
  destruct (changeDisplay i cv (lookup_js (lastValues (this w)) i)) as [c | |];
    [| reflexivity | reflexivity].
  set (r3 := put_cell ChangeId c r2).
  unfold w2. rewrite set_row_twice.
  unfold displayed, predictionDisplay.
  fold shown.
  destruct (records pv br) eqn:Hrec.
  - unfold records in Hrec. rewrite Hrec.
    unfold mbind, M_bind, bind, modify.
    rewrite (writeCell_row _ _ _ _ r3) by apply set_row_lookup.
    rewrite set_row_twice. reflexivity.
  - unfold records in Hrec. rewrite Hrec.
    destruct (negb (truthy br));
      rewrite (writeCell_row _ _ _ _ r3) by apply set_row_lookup;
      rewrite set_row_twice; unfold with_this; simpl; reflexivity.
Qed.

(** ** The batch as a cycle reads it *)

Lemma feature_ids_range : feature_ids = seq 1 31.
Proof. reflexivity. Qed.

Lemma feature_ids_NoDup : NoDup feature_ids.
Proof. rewrite feature_ids_range. apply NoDup_seq. Qed.

Lemma elem_of_feature_ids (i : nat) : i ∈ feature_ids <-> 1 <= i <= 31.
Proof. rewrite feature_ids_range, elem_of_seq. lia. Qed.

Arguments changeDisplay : simpl never.
Arguments determineDataStatus : simpl never.
Arguments displayed : simpl never.
Arguments half_displayed : simpl never.
Arguments absent : simpl never.
Arguments count : simpl never.

Lemma displayFeature_eq (F br : value) (f : feature) (c : counts) (w : world) :
  displayFeature F br f c w =
    match reading_of F (feature_id f) with
    | None => Thrown w
    | Some (cv, src, pv) =>
        match rows (document w) !! feature_id f with
        | None => Thrown w
        | Some r =>
            match changeDisplay (feature_id f) cv
                    (lookup_js (lastValues (this w)) (feature_id f)) with
            | Val ch =>
                Done (count (determineDataStatus cv) c)
                  (displayed (feature_id f) cv (determineDataStatus cv) src pv br ch w)
            | TypeError =>
                Thrown (half_displayed (feature_id f) cv (determineDataStatus cv) src r w)
            | NotModelled => Stuck
            end
        end
    end.
Proof.
  unfold displayFeature, reading_of, featureData, read.
  destruct (at_index F (feature_id f - 1)) as [fd |]; [| reflexivity].
  run_monad.
  destruct fd; try reflexivity; cbn [prop];
    (destruct (rows (document w) !! feature_id f) as [r |] eqn:Hr;
     [ rewrite (updateFeatureDisplayWithoutSaving_eq _ _ _ _ _ _ r) by exact Hr;
       match goal with
       | |- context [changeDisplay ?a ?b ?c] => destruct (changeDisplay a b c)
       end; reflexivity
     | unfold updateFeatureDisplayWithoutSaving; run_monad;
       match goal with
       | |- context [if ?b then _ else _] => destruct b
       end; by rewrite writeCell_no_row ]).
Qed.

Lemma saveFeature_eq (F : value) (f : feature) (w : world) :
  saveFeature F f w =
    match reading_of F (feature_id f) with
    | None => Thrown w
    | Some (cv, _, _) =>
        Done tt (if absent cv then w
                 else with_this (remember_value (feature_id f) cv) w)
    end.
Proof.
  unfold saveFeature, reading_of, featureData, read.
  destruct (at_index F (feature_id f - 1)) as [fd |]; [| reflexivity].
  run_monad.
  destruct fd; try reflexivity; cbn [prop];
    match goal with
    | |- context [absent ?v] => destruct (absent v)
    end; reflexivity.
Qed.

(** ** The two passes of a cycle *)

Lemma displayed_lastValues i cv st src pv br ch w :
  lastValues (this (displayed i cv st src pv br ch w)) = lastValues (this w).
Proof. unfold displayed. destruct (records pv br); reflexivity. Qed.

Lemma displayed_rows i cv st src pv br ch w :
  rows (document (displayed i cv st src pv br ch w)) =
    <[i := {| tPredictionCell :=
                tPredictionDisplay (lookup_js (lastPredictionValues (this w)) i);
              valueCell := valueDisplay cv st src;
              changeCell := ch;
              predictionCell := predictionDisplay pv br |}]> (rows (document w)).
Proof. reflexivity. Qed.

Lemma displayed_predictions i cv st src pv br ch w :
  lastPredictionValues (this (displayed i cv st src pv br ch w)) =
    if records pv br then <[i := pv]> (lastPredictionValues (this w))
    else lastPredictionValues (this w).
Proof. unfold displayed. destruct (records pv br); reflexivity. Qed.

Lemma displayed_predictions_lookup i j cv st src pv br ch w :
  lastPredictionValues (this (displayed i cv st src pv br ch w)) !! j =
    if decide (i = j)
    then (if records pv br then Some pv else lastPredictionValues (this w) !! j)
    else lastPredictionValues (this w) !! j.
Proof.
  rewrite displayed_predictions.
  destruct (records pv br).
  - rewrite lookup_insert. reflexivity.
  - destruct (decide (i = j)); reflexivity.
Qed.

Lemma displayed_predictions_lookup_js_ne i j cv st src pv br ch w :
  i <> j ->
  lookup_js (lastPredictionValues (this (displayed i cv st src pv br ch w))) j =
    lookup_js (lastPredictionValues (this w)) j.
Proof.
  intros Hne. unfold lookup_js. rewrite displayed_predictions_lookup.
  destruct (decide (i = j)); [contradiction | reflexivity].
Qed.

Lemma foldM_cons_Done {A B} (f : A -> B -> M B) x xs b w b' w' :
  foldM f (x :: xs) b w = Done b' w' ->
  exists b1 w1, f x b w = Done b1 w1 /\ foldM f xs b1 w1 = Done b' w'.
Proof.
  simpl. run_monad. destruct (f x b w) as [b1 w1 | |]; try discriminate.
  intros H. eauto.
Qed.

Lemma forEach_cons_Done {A} (f : A -> M unit) x xs w w' :
  forEach (x :: xs) f w = Done tt w' ->
  exists w1, f x w = Done tt w1 /\ forEach xs f w1 = Done tt w'.
Proof.
  simpl. run_monad. destruct (f x w) as [[] w1 | |]; try discriminate.
  intros H. eauto.
Qed.

Lemma displayFeature_Done F br f c w c1 w1 :
  displayFeature F br f c w = Done c1 w1 ->
  exists cv src pv ch,
    reading_of F (feature_id f) = Some (cv, src, pv) /\
    changeDisplay (feature_id f) cv
      (lookup_js (lastValues (this w)) (feature_id f)) = Val ch /\
    c1 = count (determineDataStatus cv) c /\
    w1 = displayed (feature_id f) cv (determineDataStatus cv) src pv br ch w.
Proof.
  rewrite displayFeature_eq.
  destruct (reading_of F (feature_id f)) as [[[cv src] pv] |]; [| discriminate].
  destruct (rows (document w) !! feature_id f); [| discriminate].
  destruct (changeDisplay _ _ _) as [ch | |] eqn:Hch; try discriminate.
  intros [= <- <-]. exists cv, src, pv, ch. auto.
Qed.

(** The display pass over any list of features with distinct ids: it leaves
    [lastValues] alone, touches nothing of the features outside the list,
    and shows each feature of the list from the world the pass began in. *)
Lemma display_pass (F br : value) (fs : list feature) :
  NoDup (map feature_id fs) ->
  forall c w c' w',
    foldM (displayFeature F br) fs c w = Done c' w' ->
    lastValues (this w') = lastValues (this w) /\
    (forall i, i ∉ map feature_id fs ->
       rows (document w') !! i = rows (document w) !! i /\
       lastPredictionValues (this w') !! i = lastPredictionValues (this w) !! i) /\
    (forall i, i ∈ map feature_id fs -> shown_as F br w w' i).
Proof.
  induction fs as [| f fs IH]; intros Hnd c w c' w' Hrun.
  - simpl in Hrun. run_monad. injection Hrun as <- <-.
    split; [reflexivity |]. split; [auto |].
    intros i Hi. simpl in Hi. by apply elem_of_nil in Hi.
  - simpl in Hnd. apply NoDup_cons in Hnd as [Hf Hnd].
    apply foldM_cons_Done in Hrun as (c1 & w1 & Hstep & Hrest).
    apply displayFeature_Done in Hstep as (cv & src & pv & ch & Hread & Hch & -> & ->).
    destruct (IH Hnd _ _ _ _ Hrest) as (Hlv & Hout & Hin).
    split; [| split].
    + by rewrite Hlv, displayed_lastValues.
    + intros i Hi. simpl in Hi. apply not_elem_of_cons in Hi as [Hne Hi].
      destruct (Hout i Hi) as [Hr Hp]. split.
      * rewrite Hr, displayed_rows. by apply lookup_insert_ne.
      * rewrite Hp, displayed_predictions_lookup.
        case_decide; [congruence | reflexivity].
    + intros i Hi. simpl in Hi. apply elem_of_cons in Hi as [-> | Hi].
      * destruct (Hout _ Hf) as [Hr Hp].
        exists cv, src, pv, ch. repeat split; try assumption.
        -- rewrite Hr, displayed_rows. apply lookup_insert_eq.
        -- rewrite Hp, displayed_predictions_lookup.
           case_decide; [reflexivity | congruence].
      * assert (Hne : feature_id f <> i) by (intros Heq; subst i; contradiction).
        destruct (Hin i Hi) as (cv' & src' & pv' & ch' & Hread' & Hch' & Hrow' & Hp').
        exists cv', src', pv', ch'. repeat split; try assumption.
        -- by rewrite displayed_lastValues in Hch'.
        -- rewrite Hrow'. unfold row_shown.
           rewrite displayed_predictions_lookup_js_ne by exact Hne. reflexivity.
        -- rewrite Hp', displayed_predictions_lookup.
           case_decide; [congruence | reflexivity].
Qed.

(** The saving pass: only [lastValues] changes, and only at the features of
    the list whose current value is there. *)
Lemma save_pass (F : value) (fs : list feature) :
  NoDup (map feature_id fs) ->
  forall w w',
    forEach fs (saveFeature F) w = Done tt w' ->
    document w' = document w /\
    lastPredictionValues (this w') = lastPredictionValues (this w) /\
    (forall i, i ∉ map feature_id fs ->
       lastValues (this w') !! i = lastValues (this w) !! i) /\
    (forall i, i ∈ map feature_id fs ->
       exists cv src pv,
         reading_of F i = Some (cv, src, pv) /\
         lastValues (this w') !! i =
           if absent cv then lastValues (this w) !! i else Some cv).
Proof.
  induction fs as [| f fs IH]; intros Hnd w w' Hrun.
  - simpl in Hrun. run_monad. injection Hrun as <-.
    repeat split; auto.
    intros i Hi. simpl in Hi. by apply elem_of_nil in Hi.
  - simpl in Hnd. apply NoDup_cons in Hnd as [Hf Hnd].
    apply forEach_cons_Done in Hrun as (w1 & Hstep & Hrest).
    rewrite saveFeature_eq in Hstep.
    destruct (reading_of F (feature_id f)) as [[[cv src] pv] |] eqn:Hread;
      [| discriminate].
    injection Hstep as <-.
    destruct (IH Hnd _ _ Hrest) as (Hdoc & Hlp & Hout & Hin).
    assert (Hstep_lv : forall j,
      lastValues (this (if absent cv then w
                        else with_this (remember_value (feature_id f) cv) w)) !! j =
      if decide (feature_id f = j)
      then (if absent cv then lastValues (this w) !! j else Some cv)
      else lastValues (this w) !! j).
    { intros j. destruct (absent cv); simpl.
      - case_decide; reflexivity.
      - apply lookup_insert. }
    split; [| split; [| split]].
    + rewrite Hdoc. destruct (absent cv); reflexivity.
    + rewrite Hlp. destruct (absent cv); reflexivity.
    + intros i Hi. simpl in Hi. apply not_elem_of_cons in Hi as [Hne Hi].
      rewrite (Hout i Hi), Hstep_lv.
      case_decide; [congruence | reflexivity].
    + intros i Hi. simpl in Hi. apply elem_of_cons in Hi as [-> | Hi].
      * exists cv, src, pv. split; [assumption |].
        rewrite (Hout _ Hf), Hstep_lv.
        case_decide; [reflexivity | congruence].
      * assert (Hne : feature_id f <> i) by (intros Heq; subst i; contradiction).
        destruct (Hin i Hi) as (cv' & src' & pv' & Hread' & Hlv').
        exists cv', src', pv'. split; [assumption |].
        rewrite Hlv', Hstep_lv.
        case_decide; [congruence | reflexivity].
Qed.

Lemma cycle_tail_keeps (data : value) (c : counts) (w : world) :
  match cycle_tail data c w with
  | Done _ w' | Thrown w' =>
      rows (document w') = rows (document w) /\
      lastValues (this w') = lastValues (this w) /\
      lastPredictionValues (this w') = lastPredictionValues (this w)
  | Stuck => True
  end.
Proof.
  unfold cycle_tail, updateStats, updateTBMStatusFromBackend, updateStepInfo.
  run_monad.
  destruct (truthy (js_or (member data "buffer_ready") (Bool false))); simpl.
  - auto.
  - destruct (ToString_throws (js_or (member data "step_count") (Num 0)));
      simpl; auto.
Qed.

Lemma updateData_unfold (data : value) (w : world) :
  has_features data = true ->
  updateData data w =
    match foldM (displayFeature (member data "features") (bufferReady_of data))
            FEATURE_CONFIG no_counts w with
    | Done c w1 =>
        match forEach FEATURE_CONFIG (saveFeature (member data "features")) w1 with
        | Done _ w2 => cycle_tail data c w2
        | Thrown w2 => Thrown w2
        | Stuck => Stuck
        end
    | Thrown w1 => Thrown w1
    | Stuck => Stuck
    end.
Proof.
  intros H. unfold has_features in H. apply andb_true_iff in H as [H1 H2].
  unfold updateData. rewrite H1, H2.
  change (negb true || negb true) with false. cbv iota.
  unfold cycle_tail, bufferReady_of.
  unfold mbind at 1, M_bind, bind at 1.
  destruct (foldM _ FEATURE_CONFIG no_counts w) as [c w1 | |]; reflexivity.
Qed.

Lemma updateData_discards (data : value) (w : world) :
  has_features data = false -> updateData data w = Done tt w.
Proof.
  intros H. unfold has_features in H. unfold updateData.
  destruct (truthy data); simpl in *; [| reflexivity].
  rewrite H. reflexivity.
Qed.

Lemma reading_of_unique F i cv src pv cv' src' pv' :
  reading_of F i = Some (cv, src, pv) ->
  reading_of F i = Some (cv', src', pv') ->
  cv = cv' /\ src = src' /\ pv = pv'.
Proof. intros H1 H2. rewrite H1 in H2. injection H2. auto. Qed.

Lemma cycle_spec (data : value) (w w' : world) :
  reconciles data w w' ->
  (forall i, i ∈ feature_ids -> reconciled_at data w w' i) /\
  (forall i, i ∉ feature_ids ->
     rows (document w') !! i = rows (document w) !! i /\
     lastPredictionValues (this w') !! i = lastPredictionValues (this w) !! i /\
     lastValues (this w') !! i = lastValues (this w) !! i).
Proof.
  intros [Hf Hrun]. rewrite (updateData_unfold _ _ Hf) in Hrun.
  destruct (foldM _ FEATURE_CONFIG no_counts w) as [c w1 | |] eqn:Hshow;
    try discriminate.
  destruct (forEach FEATURE_CONFIG _ w1) as [[] w2 | |] eqn:Hsave;
    try discriminate.
  pose proof (cycle_tail_keeps data c w2) as Htail. rewrite Hrun in Htail.
  destruct Htail as (Trows & Tlv & Tlp).
  destruct (display_pass _ _ _ feature_ids_NoDup _ _ _ _ Hshow) as (Dlv & Dout & Din).
  destruct (save_pass _ _ feature_ids_NoDup _ _ Hsave) as (Sdoc & Slp & Sout & Sin).
  fold feature_ids in Dout, Din, Sout, Sin.
  split.
  - intros i Hi.
    destruct (Din i Hi) as (cv & src & pv & ch & Hread & Hch & Hrow & Hp).
    destruct (Sin i Hi) as (cv' & src' & pv' & Hread' & Hlv).
    destruct (reading_of_unique _ _ _ _ _ _ _ _ Hread Hread') as (<- & <- & <-).
    exists cv, src, pv, ch. repeat split; try assumption.
    + by rewrite Trows, Sdoc.
    + by rewrite Tlp, Slp.
    + by rewrite Tlv, Hlv, Dlv.
  - intros i Hi. destruct (Dout i Hi) as [Hr Hp].
    repeat split.
    + by rewrite Trows, Sdoc.
    + by rewrite Tlp, Slp.
    + by rewrite Tlv, (Sout i Hi), Dlv.
Qed.

(** ** Sequences of cycles *)

Lemma most_recent_all_absent (vs : list value) (known : option value) :
  Forall (fun v => absent v = true) vs -> most_recent vs known = known.
Proof.
  induction 1 as [| v vs Hv _ IH]; simpl; [reflexivity |].
  by rewrite Hv.
Qed.

Lemma reconciled_lastValue (d : value) (w w' : world) (i : nat) :
  i ∈ feature_ids -> reconciles d w w' ->
  lastValues (this w') !! i =
    if absent (current_value_of d i) then lastValues (this w) !! i
    else Some (current_value_of d i).
Proof.
  intros Hi Hrec.
  destruct (proj1 (cycle_spec _ _ _ Hrec) i Hi)
    as (cv & src & pv & ch & Hread & _ & _ & _ & Hlv).
  unfold current_value_of. by rewrite Hread.
Qed.

Lemma cycles_lastValue (i : nat) (ds : list value) (w w' : world) :
  i ∈ feature_ids -> cycles ds w w' ->
  lastValues (this w') !! i =
    most_recent (map (fun d => current_value_of d i) ds)
                (lastValues (this w) !! i).
Proof.
  intros Hi. induction 1 as [w | d ds w w1 w' Hrec _ IH]; simpl; [reflexivity |].
  by rewrite IH, (reconciled_lastValue d w w1 i Hi Hrec).
Qed.

(** C1. For every feature of the catalogue: a reconciled batch sets
    [lastValues[featureId]] to the feature's current value if and only if
    that value is not absent (neither [null] nor [undefined]), and leaves
    it as it was otherwise; so after any sequence of reconciled batches
    [lastValues[featureId]] is the most recent non-absent value seen, or
    what it was before the sequence if none was seen, which for a fresh
    monitor is absent. *)
Theorem lastValues_most_recent_seen (i : nat) :
  1 <= i <= 31 ->
  (forall d w w', reconciles d w w' ->
     (absent (current_value_of d i) = false ->
        lastValues (this w') !! i = Some (current_value_of d i)) /\
     (absent (current_value_of d i) = true ->
        lastValues (this w') !! i = lastValues (this w) !! i)) /\
  (forall ds w w', cycles ds w w' ->
     lastValues (this w') !! i =
       most_recent (map (fun d => current_value_of d i) ds)
                   (lastValues (this w) !! i)) /\
  (forall ds w', cycles ds initial_world w' ->
     Forall (fun d => absent (current_value_of d i) = true) ds ->
     lastValues (this w') !! i = None).
Proof.
  intros Hi. apply elem_of_feature_ids in Hi.
  split; [| split].
  - intros d w w' Hrec.
    rewrite (reconciled_lastValue d w w' i Hi Hrec).
    split; intros ->; reflexivity.
  - intros ds w w'. by apply cycles_lastValue.
  - intros ds w' Hcyc Habs.
    rewrite (cycles_lastValue i _ _ _ Hi Hcyc), most_recent_all_absent;
      [reflexivity |].
    by apply Forall_fmap.
Qed.

(** ** Example batches *)

Lemma reconciles_tick1 : reconciles tick1 initial_world world1.
Proof. split; vm_compute; reflexivity. Qed.

Lemma reconciles_tick_quiet : reconciles tick_quiet world1 world2.
Proof. split; vm_compute; reflexivity. Qed.

Lemma reconciles_tick5 : reconciles tick5 world2 world5.
Proof. split; vm_compute; reflexivity. Qed.

Lemma reconciles_tick6 : reconciles tick6 world5 world6.
Proof. split; vm_compute; reflexivity. Qed.

Lemma lastValues_most_recent_seen_witness :
  lastValues (this world5) !! 1 =
    most_recent (map (fun d => current_value_of d 1) [tick1; tick_quiet; tick5])
                (lastValues (this initial_world) !! 1).
Proof.
  apply (proj1 (proj2 (lastValues_most_recent_seen 1 ltac:(lia)))).
  eapply cycles_cons; [exact reconciles_tick1 |].
  eapply cycles_cons; [exact reconciles_tick_quiet |].
  eapply cycles_cons; [exact reconciles_tick5 |].
  apply cycles_nil.
Defined.

(** ** Change against the last known value *)

Lemma ToNumber_Val_no_throw (v : value) (x : float) :
  ToNumber v = Val x -> ToString_throws v = false.
Proof.
  destruct v; simpl; try reflexivity.
  - destruct (has_key "toString" fields); [discriminate | reflexivity].
  - destruct (existsb ToString_throws items); discriminate.
Qed.

Lemma changeDisplay_numbers (i : nat) (c l : float) (lv : value) :
  absent lv = false -> ToNumber lv = Val l ->
  changeDisplay i (Num c) lv =
    Val (render_change (c - l) ((c - l) / PrimFloat.abs l * 100)%float).
Proof.
  intros Hlv Hnum. unfold changeDisplay, js_sub, math_abs.
  rewrite Hlv, Hnum, (ToNumber_Val_no_throw _ _ Hnum).
  cbn [absent ToString_throws ToNumber orb]. rewrite andb_false_r. reflexivity.
Qed.

Lemma changeDisplay_first (i : nat) (cv lv : value) (ch : cell) :
  absent lv = true -> changeDisplay i cv lv = Val ch -> ch = unknown_change.
Proof.
  intros Hlv. unfold changeDisplay. rewrite Hlv.
  destruct (absent cv); [by intros [= <-] |].
  destruct ((i <=? 3)%nat && _); [discriminate | by intros [= <-]].
Qed.

Lemma reconciled_change (d : value) (w w' : world) (i : nat) (c l : float) (lv : value) :
  i ∈ feature_ids -> reconciles d w w' ->
  current_value_of d i = Num c ->
  lastValues (this w) !! i = Some lv -> absent lv = false -> ToNumber lv = Val l ->
  change_cell_of w' i =
    Some (render_change (c - l) ((c - l) / PrimFloat.abs l * 100)%float).
Proof.
  intros Hi Hrec Hcv Hlast Hlv Hnum.
  destruct (proj1 (cycle_spec _ _ _ Hrec) i Hi)
    as (cv & src & pv & ch & Hread & Hch & Hrow & _).
  unfold current_value_of in Hcv. rewrite Hread in Hcv. subst cv.
  unfold lookup_js in Hch. rewrite Hlast in Hch. simpl in Hch.
  rewrite (changeDisplay_numbers i c l lv Hlv Hnum) in Hch.
  injection Hch as <-.
  unfold change_cell_of. rewrite Hrow. reflexivity.
Qed.

(** C2. For every feature of the catalogue and every reconciled batch in
    which its current value is a number [c]: when a last known value exists
    and reads as the number [l], the change cell shows the change [c - l]
    with the percentage [(c - l) / |l| * 100], classified no-change when
    [|c - l| < 1e-4] and increase or decrease otherwise. The last known
    value is the one of the latest batch that carried a value: with [v1]
    in one batch, any number of batches without a value after it, and [v2]
    in the next batch, that batch shows the change [v2 - v1]. With no
    prior known value the change cell shows the unknown marker. *)
Theorem change_against_last_known (i : nat) :
  1 <= i <= 31 ->
  (forall d w w' c l lv,
     reconciles d w w' -> current_value_of d i = Num c ->
     lastValues (this w) !! i = Some lv -> absent lv = false ->
     ToNumber lv = Val l ->
     change_cell_of w' i =
       Some (render_change (c - l) ((c - l) / PrimFloat.abs l * 100)%float)) /\
  (forall d1 ds d2 w0 w1 wk w' v1 v2,
     reconciles d1 w0 w1 -> current_value_of d1 i = Num v1 ->
     cycles ds w1 wk ->
     Forall (fun d => absent (current_value_of d i) = true) ds ->
     reconciles d2 wk w' -> current_value_of d2 i = Num v2 ->
     change_cell_of w' i =
       Some (render_change (v2 - v1) ((v2 - v1) / PrimFloat.abs v1 * 100)%float)) /\
  (forall d w w',
     reconciles d w w' -> absent (lookup_js (lastValues (this w)) i) = true ->
     change_cell_of w' i = Some unknown_change).
Proof.
  intros Hrange. pose proof Hrange as Hi. apply elem_of_feature_ids in Hi.
  split; [| split].
  - intros d w w' c l lv Hrec Hcv Hlast Hlv Hnum.
    by apply (reconciled_change d w w' i c l lv).
  - intros d1 ds d2 w0 w1 wk w' v1 v2 Hrec1 Hv1 Hcyc Habs Hrec2 Hv2.
    apply (reconciled_change d2 wk w' i v2 v1 (Num v1)); try done.
    rewrite (cycles_lastValue i _ _ _ Hi Hcyc).
    rewrite most_recent_all_absent by (by apply Forall_fmap).
    rewrite (reconciled_lastValue d1 w0 w1 i Hi Hrec1), Hv1. reflexivity.
  - intros d w w' Hrec Hnone.
    destruct (proj1 (cycle_spec _ _ _ Hrec) i Hi)
      as (cv & src & pv & ch & Hread & Hch & Hrow & _).
    unfold change_cell_of. rewrite Hrow. simpl.
    by rewrite (changeDisplay_first _ _ _ _ Hnone Hch).
Qed.

Lemma change_against_last_known_witness :
  change_cell_of world5 1 =
    Some (render_change (12.5 - 12.3)
            ((12.5 - 12.3) / PrimFloat.abs 12.3 * 100)%float).
Proof.
  apply (proj1 (proj2 (change_against_last_known 1 ltac:(lia)))
           tick1 [tick_quiet] tick5 initial_world world1 world2 world5
           12.3%float 12.5%float).
  - exact reconciles_tick1.
  - vm_compute. reflexivity.
  - eapply cycles_cons; [exact reconciles_tick_quiet | apply cycles_nil].
  - repeat constructor.
  - exact reconciles_tick5.
  - vm_compute. reflexivity.
Defined.

(** ** The prediction shown for the current step *)

Lemma reconciled_prediction (d : value) (w w' : world) (i : nat) :
  i ∈ feature_ids -> reconciles d w w' ->
  tPrediction_cell_of w' i =
    Some (tPredictionDisplay (lookup_js (lastPredictionValues (this w)) i)) /\
  prediction_cell_of w' i =
    Some (predictionDisplay (prediction_value_of d i) (bufferReady_of d)) /\
  lastPredictionValues (this w') !! i =
    match recorded d i with
    | Some p => Some p
    | None => lastPredictionValues (this w) !! i
    end.
Proof.
  intros Hi Hrec.
  destruct (proj1 (cycle_spec _ _ _ Hrec) i Hi)
    as (cv & src & pv & ch & Hread & _ & Hrow & Hlp & _).
  unfold tPrediction_cell_of, prediction_cell_of, recorded, prediction_value_of.
  rewrite Hrow, Hread, Hlp. simpl.
  destruct (records pv (bufferReady_of d)); auto.
Qed.


Lemma reconciles_tick_stalled : reconciles tick_stalled world5 world_stalled.
Proof. split; vm_compute; reflexivity. Qed.



Example t_prediction_after_stall :
  recorded tick_stalled 1 = None /\
  textContent <$> tPrediction_cell_of world_resumed 1 = Some "13.10".
Proof. split; vm_compute; reflexivity. Qed.

(** ** Gating on [buffer_ready] *)

Section RecordedOnly.

Variables F br : value.

Lemma recorded_only_refl (w : world) : recorded_only F br w w.
Proof. split; auto. Qed.

Lemma recorded_only_same (w w' : world) :
  lastPredictionValues (this w') = lastPredictionValues (this w) ->
  recorded_only F br w w'.
Proof. intros H. split; [auto | intros i; left; by rewrite H]. Qed.

Lemma recorded_only_trans (w1 w2 w3 : world) :
  recorded_only F br w1 w2 -> recorded_only F br w2 w3 ->
  recorded_only F br w1 w3.
Proof.
  intros [H12 K12] [H23 K23]. split.
  - intros Hbr. by rewrite (H23 Hbr), (H12 Hbr).
  - intros i. destruct (K23 i) as [Heq | Hrec]; [| by right].
    rewrite Heq. apply K12.
Qed.

Lemma records_true (pv : value) :
  records pv br = true -> absent pv = false /\ truthy br = true.
Proof.
  unfold records. intros H. apply andb_true_iff in H as [H1 H2].
  split; [by apply negb_true_iff | assumption].
Qed.

Lemma displayed_recorded_only i cv st src pv ch w src' cv' :
  reading_of F i = Some (cv', src', pv) ->
  recorded_only F br w (displayed i cv st src pv br ch w).
Proof.
  intros Hread. split.
  - intros Hbr. rewrite displayed_predictions.
    unfold records. rewrite Hbr, andb_false_r. reflexivity.
  - intros j. rewrite displayed_predictions_lookup.
    case_decide as Hij; [| by left].
    destruct (records pv br) eqn:Hrec; [| by left].
    right. destruct (records_true _ Hrec) as [Hpv Hbr].
    subst j. split; [assumption |]. by exists cv', src', pv.
Qed.

(** However the display pass ends, it has changed [lastPredictionValues]
    only by recording. *)
Lemma display_pass_recorded_only (fs : list feature) :
  forall c w,
    after_any (foldM (displayFeature F br) fs c w) (recorded_only F br w).
Proof.
  induction fs as [| f fs IH]; intros c w; simpl.
  - apply recorded_only_refl.
  - run_monad. rewrite displayFeature_eq.
    destruct (reading_of F (feature_id f)) as [[[cv src] pv] |] eqn:Hread;
      [| apply recorded_only_refl].
    destruct (rows (document w) !! feature_id f) as [r |];
      [| apply recorded_only_refl].
    destruct (changeDisplay _ _ _) as [ch | |]; simpl;
      [| by apply recorded_only_same | exact I].
    specialize (IH (count (determineDataStatus cv) c)
                   (displayed (feature_id f) cv (determineDataStatus cv)
                      src pv br ch w)).
    pose proof (displayed_recorded_only (feature_id f) cv
                  (determineDataStatus cv) src pv ch w src cv Hread) as Hstep.
    destruct (foldM _ fs _ _); simpl in *; try exact I;
      by apply (recorded_only_trans _ _ _ Hstep).
Qed.

End RecordedOnly.

Lemma save_pass_predictions (F : value) (fs : list feature) :
  forall w,
    after_any (forEach fs (saveFeature F) w)
      (fun w' => lastPredictionValues (this w') = lastPredictionValues (this w)).
Proof.
  induction fs as [| f fs IH]; intros w; simpl.
  - reflexivity.
  - run_monad. rewrite saveFeature_eq.
    destruct (reading_of F (feature_id f)) as [[[cv src] pv] |]; simpl;
      [| reflexivity].
    specialize (IH (if absent cv then w
                    else with_this (remember_value (feature_id f) cv) w)).
    destruct (forEach fs _ _); simpl in *; try exact I;
      rewrite IH; destruct (absent cv); reflexivity.
Qed.

Lemma updateData_recorded_only (d : value) (w : world) :
  after_any (updateData d w)
    (recorded_only (member d "features") (bufferReady_of d) w).
Proof.
  destruct (has_features d) eqn:Hf.
  - rewrite (updateData_unfold _ _ Hf).
    pose proof (display_pass_recorded_only (member d "features")
                  (bufferReady_of d) FEATURE_CONFIG no_counts w) as Hshow.
    destruct (foldM _ FEATURE_CONFIG no_counts w) as [c w1 | w1 |];
      cbn [after_any] in *; [| exact Hshow | exact I].
    pose proof (save_pass_predictions (member d "features") FEATURE_CONFIG w1)
      as Hsave.
    destruct (forEach FEATURE_CONFIG _ w1) as [[] w2 | w2 |]; cbn [after_any] in *;
      [| | exact I].
    + pose proof (cycle_tail_keeps d c w2) as Htail.
      destruct (cycle_tail d c w2) as [[] w3 | w3 |]; cbn [after_any] in *; try exact I;
        destruct Htail as (_ & _ & Hlp);
        apply (recorded_only_trans _ _ _ _ _ Hshow);
        apply recorded_only_same; by rewrite Hlp.
    + apply (recorded_only_trans _ _ _ _ _ Hshow).
      by apply recorded_only_same.
  - rewrite (updateData_discards _ _ Hf). apply recorded_only_refl.
Qed.

Lemma truthy_bufferReady (d : value) :
  truthy (bufferReady_of d) = truthy (member d "buffer_ready").
Proof.
  unfold bufferReady_of, js_or.
  destruct (truthy (member d "buffer_ready")) eqn:H; [exact H | reflexivity].
Qed.

(** C4. For every batch whose [buffer_ready] is false (or otherwise
    falsy), however the cycle ends, [lastPredictionValues] is left as it
    was, and if the batch is reconciled, the next-step prediction cell of
    every one of the 31 features shows the collecting marker. For any
    batch, an entry of [lastPredictionValues] changes only when
    [buffer_ready] is true (truthy) and the batch supplies a non-absent
    prediction for that feature, which is then the value recorded. *)
Theorem buffer_ready_gates_predictions (d : value) (w : world) :
  (truthy (member d "buffer_ready") = false ->
     after_any (updateData d w)
       (fun w' => lastPredictionValues (this w') = lastPredictionValues (this w)) /\
     (forall w' i, reconciles d w w' -> 1 <= i <= 31 ->
        prediction_cell_of w' i = Some collecting_cell)) /\
  (forall i,
     after_any (updateData d w) (fun w' =>
       lastPredictionValues (this w') !! i <> lastPredictionValues (this w) !! i ->
       truthy (member d "buffer_ready") = true /\
       absent (prediction_value_of d i) = false /\
       lastPredictionValues (this w') !! i = Some (prediction_value_of d i))).
Proof.
  pose proof (updateData_recorded_only d w) as Hrec.
  split.
  - intros Hbr. split.
    + destruct (updateData d w); cbn [after_any] in *; try exact I;
        apply Hrec; by rewrite truthy_bufferReady.
    + intros w' i Hcyc Hi. apply elem_of_feature_ids in Hi.
      rewrite (proj1 (proj2 (reconciled_prediction d w w' i Hi Hcyc))).
      unfold predictionDisplay, records.
      by rewrite truthy_bufferReady, Hbr, andb_false_r.
  - intros i.
    destruct (updateData d w); cbn [after_any] in *; try exact I;
      (intros Hne; destruct Hrec as [_ Hrec];
       destruct (Hrec i) as [Heq | (Hbr & cv & src & pv & Hread & Hpv & Hlp)];
       [ contradiction
       | unfold prediction_value_of; rewrite Hread;
         by rewrite <- truthy_bufferReady ]).
Qed.

Lemma buffer_ready_gates_predictions_witness :
  after_any (updateData tick_stalled world5)
    (fun w' => lastPredictionValues (this w') = lastPredictionValues (this world5)) /\
  prediction_cell_of world_stalled 1 = Some collecting_cell.
Proof.
  destruct (proj1 (buffer_ready_gates_predictions tick_stalled world5)
              ltac:(reflexivity)) as [Hkeep Hcells].
  split; [exact Hkeep |].
  apply Hcells; [exact reconciles_tick_stalled | lia].
Defined.

(** ** Classification ([determineDataStatus]) *)

Lemma is_true_iff (v : value) : is_true v = true <-> v = Bool true.
Proof.
  split; [| intros ->; reflexivity].
  destruct v as [| | [] | | | |]; simpl; congruence.
Qed.

Lemma number_is_no_object (v : value) :
  is_number_not_nan v = true -> absent v = false /\ is_object v = false.
Proof. destruct v; simpl; try discriminate. auto. Qed.

(** C5, as the code has it. [determineDataStatus] is a total function
    into the four statuses. It answers missing exactly for [null] and
    [undefined]; predicted exactly for an object whose [predicted] is
    [true]; valid exactly for a number that is not [NaN] (the infinities
    included) and for an object with a [value] field whose [predicted] is
    not exactly [true]; error exactly for every other shape. *)
Theorem determineDataStatus_spec (v : value) :
  (determineDataStatus v = Missing <-> absent v = true) /\
  (determineDataStatus v = Predicted <->
     absent v = false /\ is_object v = true /\ member v "predicted" = Bool true) /\
  (determineDataStatus v = Valid <->
     is_number_not_nan v = true \/
     (absent v = false /\ carries_value v = true /\
      member v "predicted" <> Bool true)) /\
  (determineDataStatus v = Error <->
     absent v = false /\ is_number_not_nan v = false /\
     flagged_predicted v = false /\ carries_value v = false).
Proof.
  unfold determineDataStatus, carries_value, flagged_predicted.
  pose proof (is_true_iff (member v "predicted")) as Ht.
  pose proof (number_is_no_object v) as Hn.
  destruct (absent v); destruct (is_object v);
    destruct (is_true (member v "predicted"));
    destruct (is_number_not_nan v);
    destruct (negb (is_undefined (member v "value")));
    simpl; intuition (try discriminate; try congruence).
Qed.

(** C5, as the specification states it: valid exactly for a finite number or an
    object carrying a value field without a truthy predicted flag. The
    code asks only that a number is not [NaN], so an infinity, which
    [JSON.parse] yields for a literal such as 1e999, is valid too. *)
Lemma valid_is_not_only_finite :
  ~ (forall v,
       determineDataStatus v = Valid <->
       finite_number v = true \/
       (carries_value v = true /\ truthy (member v "predicted") = false)).
Proof.
  intros H.
  destruct (proj1 (H (Num PrimFloat.infinity)) eq_refl) as [Hfin | [Hobj _]];
    discriminate.
Qed.

Example valid_with_truthy_flag :
  determineDataStatus (Obj [("value", Num 1); ("predicted", Num 1)]) = Valid /\
  truthy (member (Obj [("value", Num 1); ("predicted", Num 1)]) "predicted") = true.
Proof. split; reflexivity. Qed.

(** ** Batches of the wrong shape *)

Lemma foldM_ext {A B} (f g : A -> B -> M B) (xs : list A) :
  (forall x, x ∈ xs -> forall b w, f x b w = g x b w) ->
  forall b w, foldM f xs b w = foldM g xs b w.
Proof.
  induction xs as [| x xs IH]; intros Hfg b w; simpl; [reflexivity |].
  run_monad. rewrite (Hfg x) by apply list_elem_of_here.
  destruct (g x b w); try reflexivity.
  apply IH. intros y Hy. apply Hfg. by apply list_elem_of_further.
Qed.

Lemma forEach_ext {A} (f g : A -> M unit) (xs : list A) :
  (forall x, x ∈ xs -> forall w, f x w = g x w) ->
  forall w, forEach xs f w = forEach xs g w.
Proof.
  induction xs as [| x xs IH]; intros Hfg w; simpl; [reflexivity |].
  run_monad. rewrite (Hfg x) by apply list_elem_of_here.
  destruct (g x w); try reflexivity.
  apply IH. intros y Hy. apply Hfg. by apply list_elem_of_further.
Qed.

Lemma reading_of_take (l : list value) (i : nat) :
  1 <= i <= 31 -> reading_of (Arr (take 31 l)) i = reading_of (Arr l) i.
Proof.
  intros Hi. unfold reading_of, at_index.
  rewrite lookup_take_lt by lia. reflexivity.
Qed.

Lemma feature_in_range (f : feature) :
  f ∈ FEATURE_CONFIG -> 1 <= feature_id f <= 31.
Proof.
  intros Hf. apply elem_of_feature_ids. unfold feature_ids.
  by apply (list_elem_of_fmap_2 feature_id).
Qed.

Lemma same_cycle_refl (o : outcome unit) : same_cycle o o.
Proof. destruct o; simpl; auto. Qed.

Lemma cycle_tail_truncated fields l c w :
  assoc "features" fields = Some (Arr l) ->
  same_cycle (cycle_tail (Obj fields) c w) (cycle_tail (truncated fields l) c w).
Proof.
  intros Hf. unfold cycle_tail, truncated, member, prop.
  cbn [assoc String.eqb Ascii.eqb Bool.eqb andb default].
  unfold updateStats, updateTBMStatusFromBackend, updateStepInfo.
  run_monad.
  repeat match goal with
         | |- context [truthy ?x] => destruct (truthy x)
         | |- context [ToString_throws ?x] => destruct (ToString_throws x)
         end;
    simpl; repeat split.
Qed.

(** C6, as the code has it. [updateData] checks only that the batch has
    [features] at all. A batch without them is discarded: nothing whatever
    is changed by [updateData], and [fetchData] then reports the connection
    as connected. The length of [features] is not checked: entries after
    the 31st are never read, so that a longer batch is reconciled like its
    first 31 entries. *)
Theorem only_missing_features_discarded (d : value) (w : world) :
  (has_features d = false ->
     updateData d w = Done tt w /\
     forall rand,
       after_any (fetchData_resume (Body d) rand w) (fun w' =>
         this w' = this w /\ rows (document w') = rows (document w) /\
         statusDot (document w') = "status-dot connected")) /\
  (forall fields l,
     d = Obj fields -> assoc "features" fields = Some (Arr l) ->
     31 <= length l ->
     same_cycle (updateData d w) (updateData (truncated fields l) w)).
Proof.
  split.
  - intros Hf. split; [by apply updateData_discards |].
    intros rand. unfold fetchData_resume.
    rewrite (updateData_discards _ _ Hf). simpl. auto.
  - intros fields l -> Hfeat Hlen.
    assert (Hm : member (Obj fields) "features" = Arr l).
    { unfold member, prop. by rewrite Hfeat. }
    assert (Hm' : member (truncated fields l) "features" = Arr (take 31 l))
      by reflexivity.
    assert (Hbr : bufferReady_of (truncated fields l) = bufferReady_of (Obj fields))
      by reflexivity.
    rewrite !updateData_unfold
      by (unfold has_features; rewrite ?Hm, ?Hm'; reflexivity).
    rewrite Hm, Hm', Hbr.
    rewrite (foldM_ext (displayFeature (Arr (take 31 l)) (bufferReady_of (Obj fields)))
                       (displayFeature (Arr l) (bufferReady_of (Obj fields)))).
    2: { intros f Hf b w0. rewrite !displayFeature_eq.
         by rewrite (reading_of_take l _ (feature_in_range f Hf)). }
    destruct (foldM _ FEATURE_CONFIG no_counts w) as [c w1 | w1 |];
      [| apply (same_cycle_refl (Thrown w1)) | exact I].
    rewrite (forEach_ext (saveFeature (Arr (take 31 l))) (saveFeature (Arr l))).
    2: { intros f Hf w0. rewrite !saveFeature_eq.
         by rewrite (reading_of_take l _ (feature_in_range f Hf)). }
    destruct (forEach FEATURE_CONFIG _ w1) as [[] w2 | w2 |];
      [| apply (same_cycle_refl (Thrown w2)) | exact I].
    by apply cycle_tail_truncated.
Qed.

Lemma reconciles_tick_long : reconciles tick_long initial_world world_long.
Proof. split; vm_compute; reflexivity. Qed.

Lemma only_missing_features_discarded_witness :
  updateData Null initial_world = Done tt initial_world /\
  same_cycle (updateData tick_long initial_world)
    (updateData
       (truncated [("features",
                    Arr (reading (Num 1.5) (Str "api") (Num 2)
                           :: repeat no_reading 31));
                   ("step_count", Num 7);
                   ("buffer_ready", Bool true);
                   ("tbm_status", Str "active")]
                  (reading (Num 1.5) (Str "api") (Num 2) :: repeat no_reading 31))
       initial_world).
Proof.
  split.
  - apply (proj1 (only_missing_features_discarded Null initial_world)).
    reflexivity.
  - apply (proj2 (only_missing_features_discarded tick_long initial_world)).
    + reflexivity.
    + reflexivity.
    + simpl. lia.
Defined.

(** C6, as the specification states it: a batch whose features array has a length
    other than 31 is discarded without touching the per-feature state or
    any cell. A batch of 32 entries is reconciled like any other. *)
Lemma longer_batch_not_discarded :
  ~ (forall d l w,
       member d "features" = Arr l -> length l <> 31 ->
       after_any (updateData d w) (fun w' =>
         lastValues (this w') = lastValues (this w) /\
         lastPredictionValues (this w') = lastPredictionValues (this w) /\
         rows (document w') = rows (document w))).
Proof.
  intros H.
  specialize (H tick_long _ initial_world eq_refl ltac:(simpl; lia)).
  rewrite (proj2 reconciles_tick_long) in H. destruct H as [Hlv _].
  apply (f_equal (fun m => m !! 1)) in Hlv.
  vm_compute in Hlv. discriminate.
Qed.

(** ** What a display step can see *)

Lemma feature_ids_take_NoDup (k : nat) :
  NoDup (map feature_id (take k FEATURE_CONFIG)).
Proof.
  change (NoDup (feature_id <$> take k FEATURE_CONFIG)).
  rewrite fmap_take.
  apply (sublist_NoDup _ feature_ids); [| apply sublist_take].
  apply feature_ids_NoDup.
Qed.

(** C7, as the code has it. Within a cycle the display pass never changes
    [lastValues], which are advanced only after all features are
    displayed. It does advance [lastPredictionValues], feature by feature:
    after the first [k] features are displayed, the entries and the rows of
    the features still to come are as the previous cycle left them. Each
    display step reads only its own feature's entries, so every row of a
    reconciled batch is the one computed from the state at the end of the
    previous cycle, whatever the other features recorded meanwhile. *)
Theorem display_reads_previous_cycle (d : value) (w w' : world) :
  reconciles d w w' ->
  (forall i, 1 <= i <= 31 ->
     exists cv src pv ch,
       reading_of (member d "features") i = Some (cv, src, pv) /\
       changeDisplay i cv (lookup_js (lastValues (this w)) i) = Val ch /\
       rows (document w') !! i =
         Some {| tPredictionCell :=
                   tPredictionDisplay (lookup_js (lastPredictionValues (this w)) i);
                 valueCell := valueDisplay cv (determineDataStatus cv) src;
                 changeCell := ch;
                 predictionCell := predictionDisplay pv (bufferReady_of d) |}) /\
  (forall k c1 w1,
     foldM (displayFeature (member d "features") (bufferReady_of d))
       (take k FEATURE_CONFIG) no_counts w = Done c1 w1 ->
     lastValues (this w1) = lastValues (this w) /\
     forall i, i ∉ map feature_id (take k FEATURE_CONFIG) ->
       rows (document w1) !! i = rows (document w) !! i /\
       lastPredictionValues (this w1) !! i = lastPredictionValues (this w) !! i).
Proof.
  intros Hrec. split.
  - intros i Hi. apply elem_of_feature_ids in Hi.
    destruct (proj1 (cycle_spec _ _ _ Hrec) i Hi)
      as (cv & src & pv & ch & Hread & Hch & Hrow & _).
    exists cv, src, pv, ch. auto.
  - intros k c1 w1 Hrun.
    destruct (display_pass _ _ _ (feature_ids_take_NoDup k) _ _ _ _ Hrun)
      as (Hlv & Hout & _).
    auto.
Qed.

Lemma display_reads_previous_cycle_witness :
  exists cv src pv ch,
    reading_of (member tick6 "features") 1 = Some (cv, src, pv) /\
    changeDisplay 1 cv (lookup_js (lastValues (this world5)) 1) = Val ch /\
    rows (document world6) !! 1 =
      Some {| tPredictionCell :=
                tPredictionDisplay (lookup_js (lastPredictionValues (this world5)) 1);
              valueCell := valueDisplay cv (determineDataStatus cv) src;
              changeCell := ch;
              predictionCell := predictionDisplay pv (bufferReady_of tick6) |}.
Proof.
  apply (proj1 (display_reads_previous_cycle tick6 world5 world6
                  reconciles_tick6)).
  lia.
Defined.

(** C7, as the specification states it: all features are displayed before any
    feature's persistent state is advanced. The display step of a feature
    records its prediction at once, before the next feature is displayed. *)
Lemma prediction_recorded_during_display :
  ~ (forall d k w c1 w1,
       foldM (displayFeature (member d "features") (bufferReady_of d))
         (take k FEATURE_CONFIG) no_counts w = Done c1 w1 ->
       lastValues (this w1) = lastValues (this w) /\
       lastPredictionValues (this w1) = lastPredictionValues (this w)).
Proof.
  intros H.
  assert (Hmid : foldM (displayFeature (member tick5 "features") (bufferReady_of tick5))
                   (take 1 FEATURE_CONFIG) no_counts world2
                 = Done (count Valid no_counts) world_mid)
    by (vm_compute; reflexivity).
  destruct (H tick5 1 world2 _ _ Hmid) as [_ Hlp].
  apply (f_equal (fun m => m !! 1)) in Hlp.
  vm_compute in Hlp. discriminate.
Qed.

(** ** Stopping and refreshing while a request is outstanding *)












(** C9, as the code has it. Nothing is held back on account of a request
    in flight. A manual refresh always starts a fetch of its own; a timer
    tick does so unless the monitor is paused, which is the only thing that
    suppresses a tick. Neither touches the monitor's per-feature state:
    that changes only when an answer arrives, and each answer is
    reconciled in one uninterrupted step. *)
Theorem ticks_fetch_regardless (w : world) :
  (exists w', step RefreshClicked w = Some w' /\
              inflight w' = S (inflight w) /\ this w' = this w) /\
  (updateInterval (this w) = true ->
   exists w', step TimerFires w = Some w' /\
              inflight w' = (if paused (this w) then inflight w
                             else S (inflight w)) /\
              this w' = this w).
Proof.
  split.
  - eexists. split; [reflexivity |]. split; reflexivity.
  - intros Htimer. unfold step, handler. rewrite Htimer.
    unfold timerCallback. run_monad.
    destruct (paused (this w)); simpl; eexists; split; try reflexivity;
      split; reflexivity.
Qed.

Lemma ticks_fetch_regardless_witness :
  exists w', step TimerFires initial_world = Some w' /\
             inflight w' = (if paused (this initial_world)
                            then inflight initial_world
                            else S (inflight initial_world)) /\
             this w' = this initial_world.
Proof.
  apply (proj2 (ticks_fetch_regardless initial_world)). reflexivity.
Defined.

(** C9, as the specification states it: a timer tick or manual refresh that arrives
    while a request is in flight starts no second one. The first request
    is in flight from [init] on, and a refresh adds a second. *)
Lemma refresh_starts_second_fetch :
  ~ (forall w e w',
       (e = TimerFires \/ e = RefreshClicked) ->
       1 <= inflight w -> step e w = Some w' ->
       inflight w' = inflight w).
Proof.
  intros H.
  assert (Hstep : step RefreshClicked initial_world = Some world_refreshed)
    by reflexivity.
  specialize (H initial_world RefreshClicked world_refreshed
                (or_intror eq_refl) ltac:(vm_compute; lia) Hstep).
  vm_compute in H. discriminate.
Qed.

(** ** The prediction shown for the current step, tick by tick *)










(** A batch one entry short of the catalogue, answered to the monitor as
    the constructor leaves it: the display pass records the prediction 2
    of feature 1 and throws at feature 31, and the fallback cycle of the
    same tick shows it. *)
Example t_prediction_of_own_batch_after_throw :
  lastPredictionValues (this initial_world) !! 1 = None /\
  prediction_value_of tick_short 1 = Num 2 /\
  match fetchData_resume (Body tick_short) (fun _ => 0.5%float) initial_world with
  | Done _ w' => textContent <$> tPrediction_cell_of w' 1 = Some "2.00"
  | _ => False
  end.
Proof. split; [| split]; vm_compute; reflexivity. Qed.

(** ** The walk through three ticks *)

(** A first batch that is not ready: every next-step cell shows the
    collecting marker and one value is counted valid. A ready batch with
    the prediction 13.1: the next-step cell shows "13.10", and so does the
    t-time cell one batch later, whatever value that batch brings. *)
Example three_ticks :
  (forall i, 1 <= i <= 31 -> prediction_cell_of world1 i = Some collecting_cell) /\
  validCountText (document world1) = Some 1 /\
  textContent <$> prediction_cell_of world5 1 = Some "13.10" /\
  textContent <$> tPrediction_cell_of world6 1 = Some "13.10" /\
  textContent <$> change_cell_of world5 1 = Some "+0.2000 (+1.6%)".
Proof.
  split.
  - intros i Hi.
    assert (Hin : i ∈ seq 1 31) by (apply elem_of_seq; lia).
    clear Hi. revert i Hin. apply Forall_forall. vm_compute.
    repeat constructor.
  - repeat split; vm_compute; reflexivity.
Qed.

(** ** Saving while displaying *)

Lemma updateChangeValue_eq (i : nat) (cv : value) (r : row) (w : world) :
  rows (document w) !! i = Some r ->
  updateChangeValue i cv w =
    match changeDisplay i cv (lookup_js (lastValues (this w)) i) with
    | Val c =>
        save_current i cv (set_row i (put_cell ChangeId c r) w)
    | TypeError => Thrown w
    | NotModelled => Stuck
    end.
Proof.
  intros Hr. unfold updateChangeValue, changeDisplay, save_current.
  destruct (absent cv) eqn:Hcv; simpl.
  { by rewrite (writeCell_row _ _ _ _ r). }
  run_monad.
  destruct (i <=? 3)%nat eqn:Hi; simpl.
  - destruct (ToString_throws cv); simpl; [reflexivity |].
    destruct (ToString_throws (lookup_js (lastValues (this w)) i));
      [reflexivity |].
    destruct (absent (lookup_js (lastValues (this w)) i)); simpl.
    { by rewrite (writeCell_row _ _ _ _ r). }
    destruct (js_sub cv (lookup_js (lastValues (this w)) i)); try reflexivity.
    destruct (math_abs (lookup_js (lastValues (this w)) i)); try reflexivity.
    unfold render_change, classify_change.
    destruct (PrimFloat.abs a <? 0.0001)%float;
      [by rewrite (writeCell_row _ _ _ _ r) |].
    destruct (0 <? a)%float; by rewrite (writeCell_row _ _ _ _ r).
  - destruct (absent (lookup_js (lastValues (this w)) i)); simpl.
    { by rewrite (writeCell_row _ _ _ _ r). }
    destruct (js_sub cv (lookup_js (lastValues (this w)) i)); try reflexivity.
    destruct (math_abs (lookup_js (lastValues (this w)) i)); try reflexivity.
    unfold render_change, classify_change.
    destruct (PrimFloat.abs a <? 0.0001)%float;
      [by rewrite (writeCell_row _ _ _ _ r) |].
    destruct (0 <? a)%float; by rewrite (writeCell_row _ _ _ _ r).
Qed.

Lemma save_current_Done (i : nat) (cv : value) (w : world) :
  save_current i cv w =
    Done tt (if absent cv then w else with_this (remember_value i cv) w).
Proof. unfold save_current. destruct (absent cv); reflexivity. Qed.

(** [updateFeatureDisplay] is [updateFeatureDisplayWithoutSaving] followed
    by storing the current value, if there is one, in
    [lastValues[featureId]]: the same cells, the same recorded prediction,
    and the same exceptions with the same partial writes, since everything
    that can throw comes before the value is stored. *)
Theorem updateFeatureDisplay_saves (i : nat) (cv : value) (st : dataStatus)
    (src pv br : value) (w : world) :
  updateFeatureDisplay i cv st src pv br w =
    (updateFeatureDisplayWithoutSaving i cv st src pv br;; save_current i cv) w.
Proof.
  destruct (rows (document w) !! i) as [r |] eqn:Hr.
  - unfold mbind at 1, M_bind, bind at 1.
    rewrite (updateFeatureDisplayWithoutSaving_eq _ _ _ _ _ _ r w Hr).
    unfold updateFeatureDisplay.
    unfold mbind at 1, M_bind, bind at 1, get.
    set (shown := lookup_js (lastPredictionValues (this w)) i).
    set (r1 := put_cell TPredictionId (tPredictionDisplay shown) r).
    assert (H1 : (if negb (is_undefined shown)
                  then writeCell TPredictionId i (formatValue shown)
                         "data-value predicted"
                  else writeCell TPredictionId i "--" "data-value missing") w
                 = Done tt (set_row i r1 w)).
    { unfold r1, tPredictionDisplay.
      destruct (negb (is_undefined shown)); by rewrite (writeCell_row _ _ _ _ r). }
    unfold mbind at 1, M_bind, bind at 1. rewrite H1. clear H1.
    set (r2 := put_cell ValueId (valueDisplay cv st src) r1).
    assert (H2 : (if negb (absent cv)
       then writeCell ValueId i (formatValue cv)
              (if is_str "api" src then "data-value api-data"
               else if is_str "predicted" src || is_str "simulated" src
                    then "data-value filled-data"
               else if is_str "cached" src then "data-value cached-data"
               else "data-value " ++ status_name st)
       else writeCell ValueId i "--" "data-value missing") (set_row i r1 w)
       = Done tt (set_row i r2 w)).
    { unfold r2, valueDisplay.
      destruct (negb (absent cv));
        rewrite (writeCell_row _ _ _ _ r1) by apply set_row_lookup;
        by rewrite set_row_twice. }
    unfold mbind at 1, M_bind, bind at 1. rewrite H2. clear H2.
    unfold mbind at 1, M_bind, bind at 1.
    rewrite (updateChangeValue_eq i cv r2 (set_row i r2 w))
      by apply set_row_lookup.
    change (lastValues (this (set_row i r2 w))) with (lastValues (this w)).
    destruct (changeDisplay i cv (lookup_js (lastValues (this w)) i)) as [c | |];
      [| reflexivity | reflexivity].
    rewrite set_row_twice, !save_current_Done.
    set (r3 := put_cell ChangeId c r2).
    assert (Hrow : forall w0, rows (document w0) = rows (document (set_row i r3 w)) ->
                   rows (document w0) !! i = Some r3).
    { intros w0 ->. apply set_row_lookup. }
    unfold displayed, predictionDisplay, records. fold shown.
    destruct (absent cv); destruct (negb (absent pv) && truthy br);
      try (destruct (negb (truthy br)));
      unfold mbind, M_bind, bind, modify;
      rewrite (writeCell_row _ _ _ _ r3) by (apply Hrow; reflexivity);
      unfold set_row, with_document, with_this, set_rows; simpl;
      rewrite !insert_insert_eq; reflexivity.
  - unfold mbind at 1, M_bind, bind at 1.
    unfold updateFeatureDisplay, updateFeatureDisplayWithoutSaving.
    run_monad.
    destruct (negb (is_undefined (lookup_js (lastPredictionValues (this w)) i)));
      by rewrite !writeCell_no_row.
Qed.

(** ** What a cycle leaves alone *)

(** A rule for relations between the world a cycle starts in and the world
    it ends in, however it ends: a reflexive and transitive relation that
    every write of the cycle respects holds across the whole of
    [updateData]. *)
Section CycleRule.

Variable d : value.
Variable R : world -> world -> Prop.

Let F := member d "features".
Let br := bufferReady_of d.

Hypothesis R_refl : forall w, R w w.
Hypothesis R_trans : forall w1 w2 w3, R w1 w2 -> R w2 w3 -> R w1 w3.
Hypothesis R_displayed : forall i cv st src pv ch r w,
  rows (document w) !! i = Some r ->
  reading_of F i = Some (cv, src, pv) ->
  R w (displayed i cv st src pv br ch w).
Hypothesis R_half_displayed : forall i cv st src r w,
  rows (document w) !! i = Some r ->
  R w (half_displayed i cv st src r w).

Lemma display_pass_rule (fs : list feature) :
  forall c w, after_any (foldM (displayFeature F br) fs c w) (R w).
Proof.
  induction fs as [| f fs IH]; intros c w; simpl.
  - apply R_refl.
  - run_monad. rewrite displayFeature_eq.
    destruct (reading_of F (feature_id f)) as [[[cv src] pv] |] eqn:Hread;
      [| apply R_refl].
    destruct (rows (document w) !! feature_id f) as [r |] eqn:Hr;
      [| apply R_refl].
    destruct (changeDisplay _ _ _) as [ch | |]; simpl;
      [| by apply (R_half_displayed _ _ _ _ r) | exact I].
    specialize (IH (count (determineDataStatus cv) c)
                   (displayed (feature_id f) cv (determineDataStatus cv)
                      src pv br ch w)).
    pose proof (R_displayed (feature_id f) cv (determineDataStatus cv) src pv
                  ch r w Hr Hread) as Hstep.
    destruct (foldM _ fs _ _); simpl in *; try exact I;
      by apply (R_trans _ _ _ Hstep).
Qed.

Hypothesis R_remembered : forall i cv src pv w,
  reading_of F i = Some (cv, src, pv) -> absent cv = false ->
  R w (with_this (remember_value i cv) w).

Lemma save_pass_rule (fs : list feature) :
  forall w, after_any (forEach fs (saveFeature F) w) (R w).
Proof.
  induction fs as [| f fs IH]; intros w; simpl.
  - apply R_refl.
  - run_monad. rewrite saveFeature_eq.
    destruct (reading_of F (feature_id f)) as [[[cv src] pv] |] eqn:Hread;
      simpl; [| apply R_refl].
    assert (Hstep : R w (if absent cv then w
                         else with_this (remember_value (feature_id f) cv) w)).
    { destruct (absent cv) eqn:Hcv; [apply R_refl |].
      by apply (R_remembered _ _ src pv). }
    specialize (IH (if absent cv then w
                    else with_this (remember_value (feature_id f) cv) w)).
    destruct (forEach fs _ _); simpl in *; try exact I;
      by apply (R_trans _ _ _ Hstep).
Qed.

Hypothesis R_tail : forall c w, after_any (cycle_tail d c w) (R w).

Lemma updateData_rule (w : world) : after_any (updateData d w) (R w).
Proof.
  destruct (has_features d) eqn:Hf.
  - rewrite (updateData_unfold _ _ Hf). fold F br.
    pose proof (display_pass_rule FEATURE_CONFIG no_counts w) as Hshow.
    destruct (foldM _ FEATURE_CONFIG no_counts w) as [c w1 | w1 |];
      cbn [after_any] in *; [| exact Hshow | exact I].
    pose proof (save_pass_rule FEATURE_CONFIG w1) as Hsave.
    destruct (forEach FEATURE_CONFIG _ w1) as [[] w2 | w2 |];
      cbn [after_any] in *; [| by apply (R_trans _ _ _ Hshow) | exact I].
    pose proof (R_tail c w2) as Htail.
    destruct (cycle_tail d c w2) as [[] w3 | w3 |]; cbn [after_any] in *;
      try exact I;
      apply (R_trans _ _ _ Hshow); by apply (R_trans _ _ _ Hsave).
  - rewrite (updateData_discards _ _ Hf). apply R_refl.
Qed.

End CycleRule.

Lemma remembered_only_trans (F : value) (w1 w2 w3 : world) :
  remembered_only F w1 w2 -> remembered_only F w2 w3 -> remembered_only F w1 w3.
Proof.
  intros H12 H23 i. destruct (H23 i) as [Heq | Hnew]; [| by right].
  rewrite Heq. apply H12.
Qed.

Lemma remembered_only_same (F : value) (w w' : world) :
  lastValues (this w') = lastValues (this w) -> remembered_only F w w'.
Proof. intros H i. left. by rewrite H. Qed.

Lemma updateData_remembered_only (d : value) (w : world) :
  after_any (updateData d w) (remembered_only (member d "features") w).
Proof.
  apply updateData_rule.
  - intros w0. by apply remembered_only_same.
  - apply remembered_only_trans.
  - intros. apply remembered_only_same. apply displayed_lastValues.
  - intros. by apply remembered_only_same.
  - intros i cv src pv w0 Hread Hcv j. simpl.
    destruct (decide (i = j)) as [<- | Hne].
    + right. exists cv, src, pv. by rewrite lookup_insert_eq.
    + left. by rewrite lookup_insert_ne.
  - intros c w0. pose proof (cycle_tail_keeps d c w0) as Htail.
    destruct (cycle_tail d c w0); cbn [after_any] in *; try exact I;
      apply remembered_only_same; apply Htail.
Qed.

(** However [updateData] ends, by returning or by throwing, an entry of
    [lastValues] that differs from before holds the non-absent current
    value the batch carries for that feature; and an entry that was there
    is still there. Nothing ever erases a remembered value. *)
Theorem lastValues_never_erased (d : value) (w : world) (i : nat) :
  after_any (updateData d w) (fun w' =>
    (lastValues (this w') !! i <> lastValues (this w) !! i ->
       absent (current_value_of d i) = false /\
       lastValues (this w') !! i = Some (current_value_of d i)) /\
    (is_Some (lastValues (this w) !! i) -> is_Some (lastValues (this w') !! i))).
Proof.
  pose proof (updateData_remembered_only d w) as H.
  destruct (updateData d w); cbn [after_any] in *; try exact I;
    (destruct (H i) as [Heq | (cv & src & pv & Hread & Hcv & Hnew)];
     [ rewrite Heq; split; [congruence | auto]
     | unfold current_value_of; rewrite Hread, Hnew; split; [auto | eauto] ]).
Qed.

Lemma reading_of_short (l : list value) (i : nat) :
  length l < i -> reading_of (Arr l) i = None.
Proof.
  intros Hlen. unfold reading_of, at_index.
  rewrite lookup_ge_None_2 by lia. reflexivity.
Qed.

(** When the entry of a catalogue feature cannot be read, because
    [features] has fewer than 31 entries or the entry is [null], the cycle
    is never completed: [updateData] throws in the display pass, after the
    features before the bad entry may already have been displayed and had
    their predictions recorded, and [lastValues] is left as it was. *)
Theorem unreadable_entry_throws (d : value) (w : world) (i : nat) :
  has_features d = true -> 1 <= i <= 31 ->
  reading_of (member d "features") i = None ->
  match updateData d w with
  | Done _ _ => False
  | Thrown w' => lastValues (this w') = lastValues (this w)
  | Stuck => True
  end.
Proof.
  intros Hf Hi Hnone. rewrite (updateData_unfold _ _ Hf).
  pose proof (display_pass_rule d
                (fun w0 w1 => lastValues (this w1) = lastValues (this w0))) as Hkeep.
  specialize (Hkeep (fun _ => eq_refl)).
  specialize (Hkeep (fun w1 w2 w3 H12 H23 => eq_trans H23 H12)).
  specialize (Hkeep (fun i cv st src pv ch r w0 _ _ =>
                       displayed_lastValues i cv st src pv _ ch w0)).
  specialize (Hkeep (fun i cv st src r w0 _ => eq_refl)).
  specialize (Hkeep FEATURE_CONFIG no_counts w).
  destruct (foldM _ FEATURE_CONFIG no_counts w) as [c w1 | w1 |] eqn:Hshow;
    cbn [after_any] in *; [| exact Hkeep | exact I].
  apply elem_of_feature_ids in Hi.
  destruct (display_pass _ _ _ feature_ids_NoDup _ _ _ _ Hshow) as (_ & _ & Hin).
  destruct (Hin i Hi) as (cv & src & pv & ch & Hread & _).
  congruence.
Qed.

Lemma unreadable_entry_throws_witness :
  match updateData tick_short initial_world with
  | Done _ _ => False
  | Thrown w' => lastValues (this w') = lastValues (this initial_world)
  | Stuck => True
  end.
Proof.
  apply (unreadable_entry_throws tick_short initial_world 31).
  - reflexivity.
  - lia.
  - apply (reading_of_short (reading (Num 1.5) (Str "api") (Num 2)
                               :: repeat no_reading 29)).
    simpl. lia.
Defined.

Lemma same_schedule_refl (w : world) : same_schedule w w.
Proof. repeat split. Qed.

Lemma same_schedule_trans (w1 w2 w3 : world) :
  same_schedule w1 w2 -> same_schedule w2 w3 -> same_schedule w1 w3.
Proof.
  intros (A1 & A2 & A3 & A4 & A5) (B1 & B2 & B3 & B4 & B5).
  repeat split; congruence.
Qed.

Lemma updateData_same_schedule (d : value) (w : world) :
  after_any (updateData d w) (same_schedule w).
Proof.
  apply updateData_rule.
  - apply same_schedule_refl.
  - apply same_schedule_trans.
  - intros i cv st src pv ch r w0 Hr _. unfold displayed.
    destruct (records pv (bufferReady_of d)); repeat split;
      simpl; apply dom_insert_lookup_L; by rewrite Hr.
  - intros i cv st src r w0 Hr. unfold half_displayed.
    repeat split. simpl. apply dom_insert_lookup_L. by rewrite Hr.
  - intros. repeat split.
  - intros c w0. unfold cycle_tail, updateStats, updateTBMStatusFromBackend,
      updateStepInfo.
    run_monad.
    repeat match goal with
           | |- context [truthy ?x] => destruct (truthy x)
           | |- context [ToString_throws ?x] => destruct (ToString_throws x)
           end;
      simpl; repeat split.
Qed.

Lemma fetchData_catch_same_schedule (rand : nat -> float) (w : world) :
  after_any (fetchData_catch rand w) (same_schedule w).
Proof.
  unfold fetchData_catch, updateStatus, hideLoading. run_monad.
  match goal with
  | |- context [updateData ?d ?w0] =>
      pose proof (updateData_same_schedule d w0) as H;
      destruct (updateData d w0)
  end; cbn [after_any] in *; try exact I;
    (eapply same_schedule_trans; [| exact H]); repeat split.
Qed.

Lemma fetchData_resume_same_schedule (r : response) (rand : nat -> float) (w : world) :
  after_any (fetchData_resume r rand w) (same_schedule w).
Proof.
  unfold fetchData_resume. destruct r as [d |];
    [| apply fetchData_catch_same_schedule].
  pose proof (updateData_same_schedule d w) as H.
  destruct (updateData d w) as [[] w1 | w1 |]; cbn [after_any] in *;
    [| | exact I].
  - unfold updateStatus, hideLoading. run_monad. cbn [after_any].
    apply (same_schedule_trans _ _ _ H). repeat split.
  - pose proof (fetchData_catch_same_schedule rand w1) as Hc.
    destruct (fetchData_catch rand w1); cbn [after_any] in *; try exact I;
      by apply (same_schedule_trans _ _ _ H).
Qed.

(** The answer to a request changes nothing of the scheduling: whatever it
    carries and however its reconciliation ends, [isRunning], the timer and
    [paused] are as before, exactly one request fewer is outstanding, and
    the table has the same rows. *)
Theorem resolving_keeps_schedule (r : response) (rand : nat -> float) (w w' : world) :
  step (FetchResolves r rand) w = Some w' ->
  isRunning (this w') = isRunning (this w) /\
  updateInterval (this w') = updateInterval (this w) /\
  paused (this w') = paused (this w) /\
  S (inflight w') = inflight w /\
  dom (rows (document w')) = dom (rows (document w)).
Proof.
  unfold step, handler. destruct (inflight w) as [| n] eqn:Hn; [discriminate |].
  run_monad.
  pose proof (fetchData_resume_same_schedule r rand (with_inflight Nat.pred w))
    as H.
  destruct (fetchData_resume r rand (with_inflight Nat.pred w));
    cbn [after_any] in *; intros [= <-];
    destruct H as (H1 & H2 & H3 & H4 & H5); simpl in *;
    rewrite Hn in H4; simpl in H4; repeat split; congruence.
Qed.

Lemma resolving_keeps_schedule_witness :
  S (inflight world_stopped_resolved) = inflight (stopped initial_world).
Proof.
  apply (resolving_keeps_schedule (Body tick1) (fun _ => 0%float)
           (stopped initial_world) world_stopped_resolved).
  vm_compute. reflexivity.
Defined.

Lemma step_keeps_rows (e : event) (w w' : world) :
  step e w = Some w' ->
  dom (rows (document w')) = dom (rows (document w)).
Proof.
  destruct e.
  - unfold step, handler. destruct (updateInterval (this w)); [| discriminate].
    unfold timerCallback. run_monad.
    destruct (paused (this w)); simpl; by intros [= <-].
  - by intros [= <-].
  - by intros [= <-].
  - by intros [= <-].
  - unfold step, handler. destruct (inflight w); [discriminate |].
    run_monad.
    pose proof (fetchData_resume_same_schedule r rand (with_inflight Nat.pred w))
      as H.
    destruct (fetchData_resume r rand (with_inflight Nat.pred w));
      cbn [after_any] in *; intros [= <-]; apply H.
Qed.

(** No event adds or removes a table row: in every world the page can
    reach after the monitor is constructed, the table has a row for each of
    the features 1 to 31 and for nothing else. *)
Theorem rows_always_cover_catalogue (es : list event) (w : world) (i : nat) :
  run es initial_world = Some w ->
  (is_Some (rows (document w) !! i) <-> 1 <= i <= 31).
Proof.
  intros Hrun.
  assert (Hdom : dom (rows (document w)) = dom (rows (document initial_world))).
  { revert Hrun. generalize initial_world. induction es as [| e es IH];
      intros w0; simpl.
    - by intros [= <-].
    - destruct (step e w0) as [w1 |] eqn:Hstep; [| discriminate].
      intros Hrun. rewrite (IH _ Hrun). by apply (step_keeps_rows e). }
  rewrite <- elem_of_dom, Hdom, <- elem_of_feature_ids.
  assert (Hinit : dom (rows (document initial_world)) = list_to_set feature_ids)
    by (vm_compute; reflexivity).
  rewrite Hinit. apply elem_of_list_to_set.
Qed.

Lemma rows_always_cover_catalogue_witness :
  is_Some (rows (document world_stopped_resolved) !! 31) <-> 1 <= 31 <= 31.
Proof.
  apply (rows_always_cover_catalogue
           [PageUnloads; FetchResolves (Body tick1) (fun _ => 0%float)]).
  vm_compute. reflexivity.
Defined.

(** ** Counting by status *)

Lemma count_status_cons (st : dataStatus) (F : value) (i : nat) (ids : list nat) :
  count_status st F (i :: ids) =
    (if status_eqb (status_in F i) st then 1 else 0) + count_status st F ids.
Proof.
  unfold count_status. simpl.
  destruct (status_eqb (status_in F i) st); reflexivity.
Qed.

Lemma display_pass_counts (F br : value) (fs : list feature) :
  forall c w c' w',
    foldM (displayFeature F br) fs c w = Done c' w' ->
    validCount c' = validCount c + count_status Valid F (map feature_id fs) /\
    missingCount c' = missingCount c + count_status Missing F (map feature_id fs) /\
    predictedCount c' =
      predictedCount c + count_status Predicted F (map feature_id fs).
Proof.
  induction fs as [| f fs IH]; intros c w c' w' Hrun.
  - simpl in Hrun. run_monad. injection Hrun as <- <-.
    unfold count_status. simpl. lia.
  - apply foldM_cons_Done in Hrun as (c1 & w1 & Hstep & Hrest).
    apply displayFeature_Done in Hstep as (cv & src & pv & ch & Hread & _ & -> & ->).
    destruct (IH _ _ _ _ Hrest) as (Hv & Hm & Hp).
    assert (Hst : status_in F (feature_id f) = determineDataStatus cv)
      by (unfold status_in; by rewrite Hread).
    cbn [map]. rewrite !count_status_cons, Hst, Hv, Hm, Hp.
    unfold count. destruct (determineDataStatus cv); simpl; lia.
Qed.

Lemma cycle_tail_counts (d : value) (c : counts) (w w' : world) :
  cycle_tail d c w = Done tt w' ->
  validCountText (document w') = Some (validCount c) /\
  missingCountText (document w') = Some (missingCount c).
Proof.
  unfold cycle_tail, updateStats, updateTBMStatusFromBackend, updateStepInfo.
  run_monad.
  repeat match goal with
         | |- context [truthy ?x] => destruct (truthy x)
         | |- context [ToString_throws ?x] => destruct (ToString_throws x)
         end;
    simpl; intros [= <-]; split; reflexivity.
Qed.

Lemma count_status_total (F : value) (ids : list nat) :
  count_status Valid F ids + count_status Missing F ids
  + count_status Predicted F ids + count_status Error F ids = length ids.
Proof.
  induction ids as [| i ids IH]; [reflexivity |].
  rewrite !count_status_cons. simpl length.
  destruct (status_in F i); simpl; lia.
Qed.

Lemma reconciled_counters (d : value) (w w' : world) :
  reconciles d w w' ->
  validCountText (document w') =
    Some (count_status Valid (member d "features") feature_ids) /\
  missingCountText (document w') =
    Some (count_status Missing (member d "features") feature_ids).
Proof.
  intros [Hf Hrun]. rewrite (updateData_unfold _ _ Hf) in Hrun.
  destruct (foldM _ FEATURE_CONFIG no_counts w) as [c w1 | |] eqn:Hshow;
    try discriminate.
  destruct (forEach FEATURE_CONFIG _ w1) as [[] w2 | |]; try discriminate.
  destruct (display_pass_counts _ _ _ _ _ _ _ Hshow) as (Hv & Hm & _).
  destruct (cycle_tail_counts _ _ _ _ Hrun) as [Tv Tm].
  fold feature_ids in Hv, Hm.
  change (validCount no_counts) with 0 in Hv.
  change (missingCount no_counts) with 0 in Hm.
  by rewrite Tv, Tm, Hv, Hm, !Nat.add_0_l.
Qed.

(** After a reconciled batch the two counters show how many of the 31
    features were classified valid and how many missing. Predicted and
    erroneous readings are in neither, so the two add up to 31 less the
    number of those. *)
Theorem counters_show_classification (d : value) (w w' : world) :
  reconciles d w w' ->
  validCountText (document w') =
    Some (count_status Valid (member d "features") feature_ids) /\
  missingCountText (document w') =
    Some (count_status Missing (member d "features") feature_ids) /\
  count_status Valid (member d "features") feature_ids
  + count_status Missing (member d "features") feature_ids
  = 31 - count_status Predicted (member d "features") feature_ids
       - count_status Error (member d "features") feature_ids.
Proof.
  intros Hrec. destruct (reconciled_counters d w w' Hrec) as [Hv Hm].
  pose proof (count_status_total (member d "features") feature_ids) as Htot.
  change (length feature_ids) with 31 in Htot.
  repeat split; try assumption.
  revert Htot.
  generalize (count_status Valid (member d "features") feature_ids),
    (count_status Missing (member d "features") feature_ids),
    (count_status Predicted (member d "features") feature_ids),
    (count_status Error (member d "features") feature_ids).
  intros; lia.
Qed.

Lemma counters_show_classification_witness :
  validCountText (document world5) =
    Some (count_status Valid (member tick5 "features") feature_ids).
Proof.
  apply (proj1 (counters_show_classification tick5 world2 world5
                  reconciles_tick5)).
Defined.

(** ** The fallback batch *)

Lemma mockFeatures_length (fs : list feature) (rand : nat -> float) :
  forall n, length (mockFeatures fs rand n) = length fs.
Proof.
  induction fs as [| f fs IH]; intros n; simpl; [reflexivity |].
  destruct (rand n <? 0.8)%float; simpl; by rewrite IH.
Qed.

Lemma mockFeatures_entries (fs : list feature) (rand : nat -> float) :
  forall n, Forall mock_entry (mockFeatures fs rand n).
Proof.
  induction fs as [| f fs IH]; intros n; simpl; [constructor |].
  destruct (rand n <? 0.8)%float.
  - constructor; [| apply IH].
    destruct (rand (n + 2)%nat <? 0.1)%float.
    + right. right. eauto.
    + right. left. eauto.
  - constructor; [by left | apply IH].
Qed.

Lemma mock_entry_reading (l : list value) (i : nat) (cv src pv : value) :
  Forall mock_entry l ->
  reading_of (Arr l) i = Some (cv, src, pv) ->
  cv = Undefined /\ src = Undefined /\ pv = Undefined.
Proof.
  intros Hl. unfold reading_of, at_index.
  destruct (l !! (i - 1)) as [v |] eqn:Hv; [| discriminate].
  apply list_elem_of_lookup_2 in Hv.
  rewrite Forall_forall in Hl.
  destruct (Hl v Hv) as [-> | [[x ->] | [x ->]]]; simpl;
    [discriminate | |]; intros [= <- <- <-]; auto.
Qed.

(** [generateMockData] always makes a batch of exactly 31 entries, each of
    them [null], a bare number, or an object [{value, predicted: true}].
    None of them has the fields [updateData] reads: whichever entry can be
    read at all reads as [undefined] in all three. *)
Theorem generateMockData_shape (rand : nat -> float) :
  exists l,
    generateMockData rand = Obj [("features", Arr l)] /\
    length l = 31 /\
    Forall mock_entry l /\
    forall i cv src pv,
      reading_of (member (generateMockData rand) "features") i = Some (cv, src, pv) ->
      cv = Undefined /\ src = Undefined /\ pv = Undefined.
Proof.
  exists (mockFeatures FEATURE_CONFIG rand 0).
  split; [reflexivity |]. split; [apply mockFeatures_length |].
  split; [apply mockFeatures_entries |].
  intros i cv src pv. apply mock_entry_reading, mockFeatures_entries.
Qed.

Lemma mock_status_missing (rand : nat -> float) (i : nat) :
  status_in (member (generateMockData rand) "features") i = Missing.
Proof.
  unfold status_in.
  destruct (reading_of _ i) as [[[cv src] pv] |] eqn:Hread; [| reflexivity].
  apply (mock_entry_reading _ _ _ _ _ (mockFeatures_entries _ _ _)) in Hread
    as (-> & _). reflexivity.
Qed.

Lemma count_status_all (st : dataStatus) (F : value) (ids : list nat) :
  (forall i, status_in F i = st) -> count_status st F ids = length ids.
Proof.
  intros Hall. induction ids as [| i ids IH]; [reflexivity |].
  rewrite count_status_cons, Hall, IH. destruct st; reflexivity.
Qed.

Lemma count_status_none (st st' : dataStatus) (F : value) (ids : list nat) :
  (forall i, status_in F i = st') -> st' <> st -> count_status st F ids = 0.
Proof.
  intros Hall Hne. induction ids as [| i ids IH]; [reflexivity |].
  rewrite count_status_cons, Hall, IH.
  destruct st', st; try reflexivity; contradiction.
Qed.

(** A cycle on the fallback batch shows no value at all. However it ends,
    it changes neither [lastValues] nor [lastPredictionValues]; and when it
    runs to its end, every feature is shown as missing with the change
    unknown and the prediction still collecting, zero values are counted
    valid and 31 missing. *)
Theorem mock_cycle_shows_nothing (rand : nat -> float) (w : world) :
  after_any (updateData (generateMockData rand) w) (fun w' =>
    lastValues (this w') = lastValues (this w) /\
    lastPredictionValues (this w') = lastPredictionValues (this w)) /\
  (forall w', updateData (generateMockData rand) w = Done tt w' ->
     (forall i, 1 <= i <= 31 -> rows (document w') !! i = Some (empty_row w i)) /\
     validCountText (document w') = Some 0 /\
     missingCountText (document w') = Some 31).
Proof.
  split.
  - pose proof (updateData_remembered_only (generateMockData rand) w) as Hlv.
    pose proof (updateData_recorded_only (generateMockData rand) w) as Hlp.
    destruct (updateData (generateMockData rand) w); cbn [after_any] in *;
      try exact I.
    + split; [| by apply Hlp].
      apply map_eq. intros i.
      destruct (Hlv i) as [Heq | (cv & src & pv & Hread & Hcv & _)]; [exact Heq |].
      apply (mock_entry_reading _ _ _ _ _ (mockFeatures_entries _ _ _)) in Hread
        as (-> & _). discriminate.
    + split; [| by apply Hlp].
      apply map_eq. intros i.
      destruct (Hlv i) as [Heq | (cv & src & pv & Hread & Hcv & _)]; [exact Heq |].
      apply (mock_entry_reading _ _ _ _ _ (mockFeatures_entries _ _ _)) in Hread
        as (-> & _). discriminate.
  - intros w' Hrun.
    assert (Hrec : reconciles (generateMockData rand) w w') by (split; [reflexivity | exact Hrun]).
    split; [| split].
    + intros i Hi. apply elem_of_feature_ids in Hi.
      destruct (proj1 (cycle_spec _ _ _ Hrec) i Hi)
        as (cv & src & pv & ch & Hread & Hch & Hrow & _).
      apply (mock_entry_reading _ _ _ _ _ (mockFeatures_entries _ _ _)) in Hread
        as (-> & -> & ->).
      rewrite Hrow. unfold changeDisplay in Hch. cbn in Hch.
      injection Hch as <-. reflexivity.
    + rewrite (proj1 (reconciled_counters _ _ _ Hrec)).
      by rewrite (count_status_none Valid Missing _ _ (mock_status_missing rand)).
    + rewrite (proj2 (reconciled_counters _ _ _ Hrec)).
      by rewrite (count_status_all Missing _ _ (mock_status_missing rand)).
Qed.

Lemma same_indicator_trans (w1 w2 w3 : world) :
  same_indicator w1 w2 -> same_indicator w2 w3 -> same_indicator w1 w3.
Proof. intros [A1 A2] [B1 B2]. split; congruence. Qed.

Lemma mock_cycle_indicator (rand : nat -> float) (w : world) :
  match updateData (generateMockData rand) w with
  | Done _ w' =>
      indicator w' = ("status-dot connecting", LabelCollecting (Num 0)) /\
      loadingShown (document w') = loadingShown (document w)
  | Thrown w' => same_indicator w w'
  | Stuck => True
  end.
Proof.
  rewrite updateData_unfold by reflexivity.
  pose proof (display_pass_rule (generateMockData rand) same_indicator) as Hshow.
  specialize (Hshow (fun _ => conj eq_refl eq_refl) same_indicator_trans).
  specialize (Hshow (fun i cv st src pv ch r w0 _ _ => ltac:(
    unfold displayed; destruct (records pv _); split; reflexivity))).
  specialize (Hshow (fun i cv st src r w0 _ => conj eq_refl eq_refl)).
  specialize (Hshow FEATURE_CONFIG no_counts w).
  destruct (foldM _ FEATURE_CONFIG no_counts w) as [c w1 | w1 |];
    cbn [after_any] in *; [| exact Hshow | exact I].
  pose proof (save_pass_rule (generateMockData rand) same_indicator) as Hsave.
  specialize (Hsave (fun _ => conj eq_refl eq_refl) same_indicator_trans).
  specialize (Hsave (fun i cv src pv w0 _ _ => conj eq_refl eq_refl)).
  specialize (Hsave FEATURE_CONFIG w1).
  destruct (forEach FEATURE_CONFIG _ w1) as [[] w2 | w2 |];
    cbn [after_any] in *; [| by apply (same_indicator_trans _ _ _ Hshow) | exact I].
  destruct (same_indicator_trans _ _ _ Hshow Hsave) as [_ Hload].
  split; [reflexivity | exact Hload].
Qed.

Lemma fetchData_catch_indicator (rand : nat -> float) (w : world) :
  match fetchData_catch rand w with
  | Done _ w' =>
      loadingShown (document w') = false /\
      indicator w' = ("status-dot connecting", LabelCollecting (Num 0))
  | Thrown w' =>
      loadingShown (document w') = false /\
      indicator w' = ("status-dot error", LabelError)
  | Stuck => True
  end.
Proof.
  unfold fetchData_catch, updateStatus, hideLoading. run_monad.
  match goal with
  | |- context [updateData ?d ?w0] =>
      pose proof (mock_cycle_indicator rand w0) as H;
      destruct (updateData d w0)
  end.
  - destruct H as [Hind Hload]. auto.
  - destruct H as [Hind Hload]. auto.
  - exact I.
Qed.

(** What the page shows once a request has been answered. The loading
    overlay is hidden. When the answer is a body that [updateData] runs
    through, the indicator reads connected, whatever [updateStepInfo] had
    put there during the cycle. In every other case the fallback batch is
    reconciled: if that cycle runs to its end the indicator reads
    collecting with step 0, the error being overwritten, and only if the
    fallback cycle itself throws does the indicator stay on error. The
    indicator never rests on the prediction-ready label. *)
Theorem indicator_after_fetch (r : response) (rand : nat -> float) (w : world) :
  match fetchData_resume r rand w with
  | Done _ w' =>
      loadingShown (document w') = false /\
      ((exists d w1, r = Body d /\ updateData d w = Done tt w1 /\
                     indicator w' = ("status-dot connected", LabelConnected)) \/
       ((forall d w1, r = Body d -> updateData d w <> Done tt w1) /\
        indicator w' = ("status-dot connecting", LabelCollecting (Num 0))))
  | Thrown w' =>
      loadingShown (document w') = false /\
      indicator w' = ("status-dot error", LabelError)
  | Stuck => True
  end.
Proof.
  unfold fetchData_resume. destruct r as [d |].
  - destruct (updateData d w) as [[] w1 | w1 |] eqn:Hd; [| | exact I].
    + unfold updateStatus, hideLoading. run_monad.
      split; [reflexivity |]. left. by exists d, w1.
    + pose proof (fetchData_catch_indicator rand w1) as H.
      destruct (fetchData_catch rand w1); try exact H.
      destruct H as [Hload Hind]. split; [exact Hload |]. right.
      split; [| exact Hind]. intros d' w1' [= <-]. congruence.
  - pose proof (fetchData_catch_indicator rand w) as H.
    destruct (fetchData_catch rand w); try exact H.
    destruct H as [Hload Hind]. split; [exact Hload |]. right.
    split; [| exact Hind]. intros d' w1' [=].
Qed.

(** ** Batches that always go through *)

Lemma changeDisplay_plain (i : nat) (cv lv : value) :
  absent cv || is_num cv = true -> absent lv || is_num lv = true ->
  exists ch, changeDisplay i cv lv = Val ch.
Proof.
  intros Hcv Hlv. unfold changeDisplay.
  destruct (absent cv) eqn:Ha; [eauto |].
  destruct cv; try discriminate.
  destruct (absent lv) eqn:Hb.
  - destruct lv; try discriminate; cbn [ToString_throws orb];
      rewrite andb_false_r; eauto.
  - destruct lv; try discriminate.
    cbn [ToString_throws orb js_sub math_abs ToNumber].
    rewrite andb_false_r. eauto.
Qed.

Lemma display_pass_total (F br : value) (fs : list feature) :
  forall c w,
    (forall f, f ∈ fs ->
       is_Some (rows (document w) !! feature_id f) /\
       exists cv src pv ch,
         reading_of F (feature_id f) = Some (cv, src, pv) /\
         changeDisplay (feature_id f) cv
           (lookup_js (lastValues (this w)) (feature_id f)) = Val ch) ->
    exists c' w', foldM (displayFeature F br) fs c w = Done c' w'.
Proof.
  induction fs as [| f fs IH]; intros c w Hall; simpl.
  - by exists c, w.
  - destruct (Hall f (list_elem_of_here _ _))
      as ([r Hr] & cv & src & pv & ch & Hread & Hch).
    run_monad. rewrite displayFeature_eq, Hread, Hr, Hch.
    apply IH. intros g Hg.
    destruct (Hall g (list_elem_of_further _ _ _ Hg)) as (Hrow & Hrest).
    rewrite displayed_lastValues, displayed_rows. split; [| exact Hrest].
    apply lookup_insert_is_Some'. by right.
Qed.

Lemma save_pass_total (F : value) (fs : list feature) :
  forall w,
    (forall f, f ∈ fs -> is_Some (reading_of F (feature_id f))) ->
    exists w', forEach fs (saveFeature F) w = Done tt w'.
Proof.
  induction fs as [| f fs IH]; intros w Hall; simpl.
  - by exists w.
  - destruct (Hall f (list_elem_of_here _ _)) as [[[cv src] pv] Hread].
    run_monad. rewrite saveFeature_eq, Hread.
    apply IH. intros g Hg. apply Hall. by apply list_elem_of_further.
Qed.

Lemma cycle_tail_total (d : value) (c : counts) (w : world) :
  ToString_throws (js_or (member d "step_count") (Num 0)) = false ->
  exists w', cycle_tail d c w = Done tt w'.
Proof.
  intros Hstep.
  unfold cycle_tail, updateStats, updateTBMStatusFromBackend, updateStepInfo.
  run_monad. rewrite Hstep.
  destruct (truthy (js_or (member d "buffer_ready") (Bool false))); eauto.
Qed.

Lemma plain_readings (d : value) (i : nat) :
  plain d = true -> i ∈ feature_ids ->
  exists cv src pv,
    reading_of (member d "features") i = Some (cv, src, pv) /\
    absent cv || is_num cv = true.
Proof.
  unfold plain. intros H Hi.
  apply andb_true_iff in H as [_ H].
  rewrite forallb_forall in H. apply list_elem_of_In in Hi.
  specialize (H i Hi).
  destruct (reading_of (member d "features") i) as [[[cv src] pv] |];
    [eauto | discriminate].
Qed.

Lemma tidy_lastValue (w : world) (i : nat) :
  tidy w ->
  absent (lookup_js (lastValues (this w)) i)
  || is_num (lookup_js (lastValues (this w)) i) = true.
Proof.
  intros [_ Hnum]. unfold lookup_js.
  destruct (lastValues (this w) !! i) as [v |] eqn:Hv; [| reflexivity].
  simpl. rewrite (Hnum i v Hv). apply orb_true_r.
Qed.

Lemma plain_step (d : value) (w : world) :
  tidy w -> plain d = true -> exists w', reconciles d w w' /\ tidy w'.
Proof.
  intros Htidy Hplain.
  assert (Hf : has_features d = true).
  { unfold plain in Hplain. by apply andb_true_iff in Hplain as [[? _]%andb_true_iff _]. }
  assert (Hstep : ToString_throws (js_or (member d "step_count") (Num 0)) = false).
  { unfold plain in Hplain.
    apply andb_true_iff in Hplain as [[_ H]%andb_true_iff _].
    by apply negb_true_iff in H. }
  assert (Hrun : exists w', updateData d w = Done tt w').
  { rewrite (updateData_unfold _ _ Hf).
    destruct (display_pass_total (member d "features") (bufferReady_of d)
                FEATURE_CONFIG no_counts w) as (c & w1 & Hshow).
    { intros f Hfe.
      assert (Hi : feature_id f ∈ feature_ids)
        by (by apply (list_elem_of_fmap_2 feature_id)).
      split; [apply (proj1 Htidy); by apply elem_of_feature_ids |].
      destruct (plain_readings d _ Hplain Hi) as (cv & src & pv & Hread & Hcv).
      destruct (changeDisplay_plain (feature_id f) cv _ Hcv
                  (tidy_lastValue w (feature_id f) Htidy)) as [ch Hch].
      by exists cv, src, pv, ch. }
    rewrite Hshow.
    destruct (save_pass_total (member d "features") FEATURE_CONFIG w1)
      as (w2 & Hsave).
    { intros f Hfe.
      assert (Hi : feature_id f ∈ feature_ids)
        by (by apply (list_elem_of_fmap_2 feature_id)).
      destruct (plain_readings d _ Hplain Hi) as (cv & src & pv & Hread & _).
      by rewrite Hread. }
    rewrite Hsave. by apply cycle_tail_total. }
  destruct Hrun as [w' Hrun]. exists w'.
  assert (Hrec : reconciles d w w') by (by split).
  split; [exact Hrec |].
  destruct (cycle_spec _ _ _ Hrec) as [Hin Hout]. split.
  - intros i Hi. apply elem_of_feature_ids in Hi.
    destruct (Hin i Hi) as (cv & src & pv & ch & _ & _ & Hrow & _).
    by rewrite Hrow.
  - intros i v Hv. destruct (decide (i ∈ feature_ids)) as [Hi | Hi].
    + destruct (Hin i Hi) as (cv & src & pv & ch & Hread & _ & _ & _ & Hlv).
      destruct (plain_readings d _ Hplain Hi) as (cv' & src' & pv' & Hread' & Hcv).
      destruct (reading_of_unique _ _ _ _ _ _ _ _ Hread Hread') as (<- & _).
      rewrite Hlv in Hv. destruct (absent cv).
      * by apply (proj2 Htidy i).
      * injection Hv as <-. exact Hcv.
    + destruct (Hout i Hi) as (_ & _ & Hlv). rewrite Hlv in Hv.
      by apply (proj2 Htidy i).
Qed.

Lemma initial_world_tidy : tidy initial_world.
Proof.
  split.
  - intros i Hi.
    assert (Hin : i ∈ seq 1 31) by (apply elem_of_seq; lia).
    clear Hi. revert i Hin. apply Forall_forall. vm_compute.
    repeat constructor; eauto.
  - intros i v Hv. change (lastValues (this initial_world)) with (∅ : gmap nat value) in Hv.
    by rewrite lookup_empty in Hv.
Qed.

(** Batches of the shape the endpoint describes always go through. From a
    world whose table has its 31 rows and whose remembered values are all
    numbers, such as the one the constructor leaves, any sequence of
    batches with readable entries and numeric or absent current values is
    reconciled batch by batch: [updateData] never throws on them, and the
    world it ends in is of the same kind. *)
Theorem plain_batches_reconcile (ds : list value) (w : world) :
  tidy w -> forallb plain ds = true ->
  exists w', cycles ds w w' /\ tidy w'.
Proof.
  revert w. induction ds as [| d ds IH]; intros w Htidy Hplain.
  - exists w. split; [constructor | exact Htidy].
  - simpl in Hplain. apply andb_true_iff in Hplain as [Hd Hds].
    destruct (plain_step d w Htidy Hd) as (w1 & Hrec & Htidy1).
    destruct (IH w1 Htidy1 Hds) as (w' & Hcyc & Htidy').
    exists w'. split; [by apply (cycles_cons d ds w w1) | exact Htidy'].
Qed.

Lemma plain_batches_reconcile_witness :
  exists w', cycles [tick1; tick_quiet; tick5] initial_world w' /\ tidy w'.
Proof.
  apply (plain_batches_reconcile [tick1; tick_quiet; tick5] initial_world).
  - exact initial_world_tidy.
  - vm_compute. reflexivity.
Defined.

(** A text in the place of the list is read unit by unit: one of eleven
    characters has no twelfth entry, so it is not such a batch, and
    [updateData] throws on it. *)
Example short_text_throws :
  length (code_units "日本語日本語日本語日本") = 11 /\
  plain (Obj [("features", Str "日本語日本語日本語日本")]) = false /\
  match updateData (Obj [("features", Str "日本語日本語日本語日本")])
          initial_world with
  | Thrown _ => True
  | _ => False
  end.
Proof. split; [| split]; vm_compute; try reflexivity; exact I. Qed.

(** ** Pausing *)

Lemma paused_tick_idle (w : world) :
  updateInterval (this w) = true -> paused (this w) = true ->
  step TimerFires w = Some w.
Proof.
  intros Ht Hp. unfold step, handler. rewrite Ht.
  unfold timerCallback. run_monad. by rewrite Hp.
Qed.

Lemma paused_ticks_idle (n : nat) (es : list event) (w : world) :
  updateInterval (this w) = true -> paused (this w) = true ->
  run (repeat TimerFires n ++ es) w = run es w.
Proof.
  intros Ht Hp. induction n as [| n IH]; [reflexivity |].
  cbn [repeat app run]. by rewrite (paused_tick_idle w Ht Hp).
Qed.

(** Pausing, letting the timer fire any number of times, and resuming
    leaves the monitor and the page exactly as they were: while paused a
    tick starts no fetch and changes nothing, and nothing is queued for
    later. *)
Theorem pause_holds_timer (n : nat) (w : world) :
  updateInterval (this w) = true -> paused (this w) = false ->
  run (PauseClicked :: repeat TimerFires n ++ [PauseClicked]) w = Some w.
Proof.
  intros Ht Hp.
  change (run (PauseClicked :: repeat TimerFires n ++ [PauseClicked]) w)
    with (run (repeat TimerFires n ++ [PauseClicked])
            (with_this (fun t => set_paused (negb (paused t)) t) w)).
  rewrite paused_ticks_idle; [| exact Ht | simpl; by rewrite Hp].
  destruct w as [[run0 timer last p lv lp] doc k]. simpl in *. subst p.
  reflexivity.
Qed.

Lemma pause_holds_timer_witness :
  run (PauseClicked :: repeat TimerFires 3 ++ [PauseClicked]) initial_world
    = Some initial_world.
Proof.
  apply (pause_holds_timer 3 initial_world); reflexivity.
Defined.

(** ** Formatting, continued *)

(** [formatValue] and the earlier revision's [formatValue] agree on every
    value that is not a number, on [NaN], and on every finite number of
    magnitude at most 1e10. They differ on the infinities, which the
    earlier revision printed and the current one replaces by "--". *)
Theorem formatValue_agrees_with_legacy (v : value) :
  (forall x, v = Num x ->
     PrimFloat.is_infinity x = false /\ (1e10 <? PrimFloat.abs x)%float = false) ->
  formatValue v = Legacy.formatValue v.
Proof.
  intros H. destruct v; try reflexivity.
  destruct (H x eq_refl) as [Hinf Hbig].
  unfold formatValue, Legacy.formatValue, PrimFloat.is_finite.
  rewrite Hinf, Hbig. destruct (PrimFloat.is_nan x); reflexivity.
Qed.

Lemma formatValue_agrees_with_legacy_witness :
  formatValue (Num 13.1) = Legacy.formatValue (Num 13.1).
Proof.
  apply (formatValue_agrees_with_legacy (Num 13.1)).
  intros x [= <-]. split; reflexivity.
Defined.

Example formatValue_differs_from_legacy :
  formatValue (Num PrimFloat.infinity) = "--" /\
  Legacy.formatValue (Num PrimFloat.infinity) = "Infinity" /\
  formatValue (Num 2e10) = "2.00e+10" /\
  Legacy.formatValue (Num 2e10) = "20000000000".
Proof. repeat split; vm_compute; reflexivity. Qed.

Lemma negative_below_one (x : float) :
  (x <? 0)%float = true ->
  (1000 <=? x)%float = false /\ (1 <=? x)%float = false.
Proof.
  rewrite ltb_spec, !leb_spec.
  change (Prim2SF 0) with (S754_zero false).
  change (Prim2SF 1000) with (S754_finite false 8796093022208000 (-43)).
  change (Prim2SF 1) with (S754_finite false 4503599627370496 (-52)).
  destruct (Prim2SF x) as [s | s | | s m e]; try destruct s; simpl;
    try discriminate; auto.
Qed.

(** A negative number is always shown with four decimals, whatever its
    size up to 1e10: the thresholds 1000 and 1 are compared with the
    signed value, so that -1500 reads "-1500.0000" where 1500 reads
    "1500". Every decrease in a change cell is shown this way. *)
Theorem negative_values_four_decimals (x : float) :
  PrimFloat.is_finite x = true -> (x <? 0)%float = true ->
  (1e10 <? PrimFloat.abs x)%float = false ->
  formatValue (Num x) = NumberFormat.toFixed 4 x.
Proof.
  intros Hfin Hneg Hbig. unfold formatValue.
  rewrite not_finite_guard, Hfin, Hbig.
  destruct (negative_below_one x Hneg) as [-> ->]. reflexivity.
Qed.

Lemma negative_values_four_decimals_witness :
  formatValue (Num (-1500)) = NumberFormat.toFixed 4 (-1500).
Proof.
  apply (negative_values_four_decimals (-1500)%float); reflexivity.
Defined.

Example negative_and_positive_1500 :
  formatValue (Num (-1500)) = "-1500.0000" /\ formatValue (Num 1500) = "1500".
Proof. split; vm_compute; reflexivity. Qed.

(** ** The stand-in prediction model *)

Lemma SFcompare_antisym (x y : spec_float) :
  SFcompare y x = option_map CompOpp (SFcompare x y).
Proof.
  destruct x as [s1| s1| |s1 m1 e1], y as [s2| s2| |s2 m2 e2]; simpl;
    try reflexivity; try (destruct s1; reflexivity);
    try (destruct s2; reflexivity); try (destruct s1, s2; reflexivity).
  change (PosDef.Pos.compare_cont Eq m1 m2) with (Pos.compare m1 m2).
  change (PosDef.Pos.compare_cont Eq m2 m1) with (Pos.compare m2 m1).
  rewrite (Z.compare_antisym e1 e2), (Pos.compare_antisym m1 m2).
  destruct s1, s2; try reflexivity;
    destruct (e1 ?= e2)%Z; simpl; try reflexivity;
    destruct (m1 ?= m2)%positive; reflexivity.
Qed.

Lemma SFcompare_refl (x : spec_float) :
  SFcompare x x = match x with S754_nan => None | _ => Some Eq end.
Proof.
  destruct x as [s| s| |s m e]; simpl; try reflexivity.
  - destruct s; reflexivity.
  - change (PosDef.Pos.compare_cont Eq m m) with (Pos.compare m m).
    rewrite Z.compare_refl, Pos.compare_refl. destruct s; reflexivity.
Qed.

Lemma SFcompare_None (x y : spec_float) :
  SFcompare x y = None <-> x = S754_nan \/ y = S754_nan.
Proof.
  destruct x, y; simpl; split; intros H; try discriminate; auto;
    destruct H; discriminate.
Qed.

Lemma is_nan_order (a : float) :
  PrimFloat.is_nan a = match order a a with None => true | Some _ => false end.
Proof.
  unfold PrimFloat.is_nan, order. rewrite FloatAxioms.eqb_spec. unfold SFeqb.
  rewrite SFcompare_refl. destruct (Prim2SF a); reflexivity.
Qed.

Lemma is_nan_Prim2SF (a : float) :
  PrimFloat.is_nan a = true <-> Prim2SF a = S754_nan.
Proof.
  rewrite is_nan_order. unfold order. rewrite SFcompare_refl.
  destruct (Prim2SF a); split; intros; congruence.
Qed.

Lemma order_numbers (a b : float) :
  PrimFloat.is_nan a = false -> PrimFloat.is_nan b = false ->
  exists c, order a b = Some c.
Proof.
  intros Ha Hb. unfold order.
  destruct (SFcompare (Prim2SF a) (Prim2SF b)) as [c|] eqn:E; eauto.
  apply SFcompare_None in E as [E|E]; apply is_nan_Prim2SF in E; congruence.
Qed.

Lemma order_antisym (a b : float) :
  order b a = option_map CompOpp (order a b).
Proof. apply SFcompare_antisym. Qed.

Lemma order_refl (a : float) :
  PrimFloat.is_nan a = false -> order a a = Some Eq.
Proof.
  intros H. rewrite is_nan_order in H. unfold order in *.
  rewrite SFcompare_refl in *. destruct (Prim2SF a); congruence.
Qed.

Lemma ltb_order (a b : float) :
  (a <? b)%float = match order a b with Some Lt => true | _ => false end.
Proof. apply FloatAxioms.ltb_spec. Qed.

Lemma leb_order (a b : float) :
  (a <=? b)%float =
  match order a b with Some Lt | Some Eq => true | _ => false end.
Proof.
  rewrite FloatAxioms.leb_spec. unfold SFleb, order.
  destruct (SFcompare _ _) as [[]|]; reflexivity.
Qed.

(** What [Math.max] and [Math.min] return, by the order of the arguments. *)
Lemma Math_max_cases (a b : float) :
  match order a b with
  | None => PrimFloat.is_nan (Math_max a b) = true
  | Some Lt => Math_max a b = b
  | Some Gt => Math_max a b = a
  | Some Eq => Math_max a b = a \/ Math_max a b = b
  end.
Proof.
  unfold Math_max. rewrite !ltb_order, (order_antisym a b).
  destruct (PrimFloat.is_nan a) eqn:Ha.
  { apply is_nan_Prim2SF in Ha. unfold order. rewrite Ha. reflexivity. }
  destruct (PrimFloat.is_nan b) eqn:Hb.
  { apply is_nan_Prim2SF in Hb. unfold order. rewrite Hb.
    destruct (Prim2SF a); reflexivity. }
  destruct (order_numbers a b Ha Hb) as [c ->]. simpl.
  destruct c; simpl; auto. destruct (is_neg_zero a); auto.
Qed.

Lemma Math_min_cases (a b : float) :
  match order a b with
  | None => PrimFloat.is_nan (Math_min a b) = true
  | Some Lt => Math_min a b = a
  | Some Gt => Math_min a b = b
  | Some Eq => Math_min a b = a \/ Math_min a b = b
  end.
Proof.
  unfold Math_min. rewrite !ltb_order, (order_antisym a b).
  destruct (PrimFloat.is_nan a) eqn:Ha.
  { apply is_nan_Prim2SF in Ha. unfold order. rewrite Ha. reflexivity. }
  destruct (PrimFloat.is_nan b) eqn:Hb.
  { apply is_nan_Prim2SF in Hb. unfold order. rewrite Hb.
    destruct (Prim2SF a); reflexivity. }
  destruct (order_numbers a b Ha Hb) as [c ->]. simpl.
  destruct c; simpl; auto. destruct (is_neg_zero b); auto.
Qed.

Lemma order_nan_l (a b : float) :
  PrimFloat.is_nan a = true -> order a b = None.
Proof.
  intros H. apply is_nan_Prim2SF in H. unfold order. rewrite H. reflexivity.
Qed.

Lemma order_nan_r (a b : float) :
  PrimFloat.is_nan b = true -> order a b = None.
Proof.
  intros H. rewrite order_antisym, order_nan_l; auto.
Qed.

Lemma Math_max_number (a b : float) :
  PrimFloat.is_nan (Math_max a b) = false ->
  PrimFloat.is_nan a = false /\ PrimFloat.is_nan b = false.
Proof.
  unfold Math_max.
  destruct (PrimFloat.is_nan a), (PrimFloat.is_nan b); simpl; auto;
    intros H; vm_compute in H; discriminate.
Qed.

Lemma Math_min_number (a b : float) :
  PrimFloat.is_nan (Math_min a b) = false ->
  PrimFloat.is_nan a = false /\ PrimFloat.is_nan b = false.
Proof.
  unfold Math_min.
  destruct (PrimFloat.is_nan a), (PrimFloat.is_nan b); simpl; auto;
    intros H; vm_compute in H; discriminate.
Qed.

(** [Math.max(a, b)] is at least [a], and at most any bound of both. *)
Lemma Math_max_lower (a b : float) :
  PrimFloat.is_nan (Math_max a b) = false -> (a <=? Math_max a b)%float = true.
Proof.
  intros H. destruct (Math_max_number a b H) as [Ha Hb].
  pose proof (Math_max_cases a b) as Hc. rewrite leb_order.
  destruct (order a b) as [[]|] eqn:E.
  - destruct Hc as [-> | ->]; [rewrite order_refl | rewrite E]; auto.
  - rewrite Hc, E. reflexivity.
  - rewrite Hc, order_refl; auto.
  - congruence.
Qed.

Lemma Math_max_upper (a b m : float) :
  (a <=? m)%float = true -> (b <=? m)%float = true ->
  (Math_max a b <=? m)%float = true.
Proof.
  intros Ha Hb. pose proof (Math_max_cases a b) as Hc.
  destruct (order a b) as [[]|] eqn:E.
  - destruct Hc as [-> | ->]; auto.
  - rewrite Hc; auto.
  - rewrite Hc; auto.
  - rewrite leb_order in Ha, Hb.
    unfold order in E. apply SFcompare_None in E as [E|E];
      unfold order in Ha, Hb; rewrite E in *; discriminate.
Qed.

Lemma Math_min_upper (a b : float) :
  PrimFloat.is_nan (Math_min a b) = false -> (Math_min a b <=? a)%float = true.
Proof.
  intros H. destruct (Math_min_number a b H) as [Ha Hb].
  pose proof (Math_min_cases a b) as Hc. rewrite leb_order.
  destruct (order a b) as [[]|] eqn:E.
  - destruct Hc as [-> | ->]; [rewrite order_refl; auto|].
    rewrite order_antisym, E. reflexivity.
  - rewrite Hc, order_refl; auto.
  - rewrite Hc, order_antisym, E. reflexivity.
  - congruence.
Qed.

(** A number that is at least a non-negative one is not negative. *)
Lemma above_nonnegative (x y : float) :
  (0 <=? x)%float = true -> (x <=? y)%float = true -> (0 <=? y)%float = true.
Proof.
  rewrite !FloatAxioms.leb_spec. unfold SFleb.
  change (Prim2SF 0) with (S754_zero false).
  destruct (Prim2SF x) as [s1| [|]| |[|] m1 e1],
           (Prim2SF y) as [s2| [|]| |[|] m2 e2]; simpl; congruence.
Qed.

Lemma nonnegative_not_below_zero (x : float) :
  (0 <=? x)%float = true -> (x <? 0)%float = false.
Proof.
  rewrite leb_order, ltb_order, (order_antisym 0 x).
  destruct (order 0 x) as [[]|]; simpl; congruence.
Qed.

Lemma nan_not_below (x y : float) :
  PrimFloat.is_nan x = true -> (x <? y)%float = false.
Proof. intros H. rewrite ltb_order, order_nan_l; auto. Qed.

(** When the upper bound is below the lower one, the lower one wins. *)
Lemma Math_max_absorbs (a b : float) :
  (b <? a)%float = true -> Math_max a b = a.
Proof.
  intros H. rewrite ltb_order, order_antisym in H.
  pose proof (Math_max_cases a b) as Hc.
  destruct (order a b) as [[]|]; simpl in H; congruence.
Qed.

Lemma SFcompare_le_lt (x y z : spec_float) :
  (SFcompare x y = Some Lt \/ SFcompare x y = Some Eq) ->
  SFcompare y z = Some Lt ->
  SFcompare x z = Some Lt.
Proof.
  destruct x as [s1| s1| |s1 m1 e1], y as [s2| s2| |s2 m2 e2],
           z as [s3| s3| |s3 m3 e3]; simpl;
    try (intros [?|?] ?; congruence);
    try (destruct s1; intros [?|?] ?; congruence);
    try (destruct s2; intros [?|?] ?; congruence);
    try (destruct s3; intros [?|?] ?; congruence);
    try (destruct s1, s2; intros [?|?] ?; congruence);
    try (destruct s1, s3; intros [?|?] ?; congruence);
    try (destruct s2, s3; intros [?|?] ?; congruence);
    try (destruct s1, s2, s3; intros [?|?] ?; congruence).
  change (PosDef.Pos.compare_cont Eq ?a ?b) with (Pos.compare a b).
  destruct s1, s2, s3; try (intros [?|?] ?; congruence);
    destruct (Z.compare_spec e1 e2), (Z.compare_spec e2 e3),
      (Z.compare_spec e1 e3); try lia; subst;
    try (intros [?|?] ?; congruence);
    destruct (Pos.compare_spec m1 m2), (Pos.compare_spec m2 m3),
      (Pos.compare_spec m1 m3); simpl; try lia; subst;
    try (intros [?|?] ?; congruence); try lia.
Qed.

Lemma below_trans (x y z : float) :
  (x <=? y)%float = true -> (y <? z)%float = true -> (x <? z)%float = true.
Proof.
  rewrite leb_order, !ltb_order. unfold order. intros H1 H2.
  rewrite (SFcompare_le_lt (Prim2SF x) (Prim2SF y) (Prim2SF z)); auto.
  - destruct (SFcompare (Prim2SF x) (Prim2SF y)) as [[]|]; auto; discriminate.
  - destruct (SFcompare (Prim2SF y) (Prim2SF z)) as [[]|]; auto; discriminate.
Qed.

(** The clamp at the end of [generateModelPrediction]. *)
Lemma clamp_band (base p : float) :
  PrimFloat.is_nan (clamp base p) = false ->
  (0 <=? clamp base p)%float = true /\
  (minValue_of base <=? clamp base p)%float = true /\
  ((minValue_of base <=? maxValue_of base)%float = true ->
   (clamp base p <=? maxValue_of base)%float = true) /\
  ((maxValue_of base <? minValue_of base)%float = true ->
   clamp base p = minValue_of base).
Proof.
  unfold minValue_of, maxValue_of. intros H. unfold clamp in *.
  destruct (Math_max_number _ _ H) as [Hmn Hq].
  pose proof (Math_max_lower _ _ H) as Hlow.
  repeat split; auto.
  - eapply above_nonnegative; [|exact Hlow]. apply Math_max_lower, Hmn.
  - intros Hle. apply Math_max_upper; auto. apply Math_min_upper, Hq.
  - intros Hlt. apply Math_max_absorbs.
    eapply below_trans; [|exact Hlt]. apply Math_min_upper, Hq.
Qed.

Lemma generateModelPrediction_eq (t : monitor) (i : nat) (cv : value)
    (random sine : float) :
  generateModelPrediction t i cv random sine =
  match base_number t i cv with
  | Val base =>
      Val (clamp base
             (base * (1 + calculateTrendFactor t i sine
                      + 0.05 * (random - 0.5) * 2))%float)
  | TypeError => TypeError
  | NotModelled => NotModelled
  end.
Proof.
  unfold generateModelPrediction, base_number.
  destruct (baseValue_of t i cv) as [v| |]; try reflexivity.
Qed.

(** Whatever the current value, the history, the trend and the random
    draw are, a prediction that [generateModelPrediction] returns is never
    below zero: it is [NaN], a zero or a positive number. *)
Theorem prediction_never_negative (t : monitor) (i : nat) (cv : value)
    (random sine r : float) :
  generateModelPrediction t i cv random sine = Val r ->
  (r <? 0)%float = false.
Proof.
  rewrite generateModelPrediction_eq.
  destruct (base_number t i cv) as [b| |]; try discriminate.
  intros [= <-].
  match goal with |- (clamp b ?p <? _)%float = _ =>
    destruct (PrimFloat.is_nan (clamp b p)) eqn:Hnan end.
  - apply nan_not_below, Hnan.
  - apply nonnegative_not_below_zero. apply (clamp_band _ _ Hnan).
Qed.

Lemma prediction_never_negative_witness :
  generateModelPrediction new_monitor 2 (Num (-4)) 0.25 1 = Val 0%float /\
  (0 <? 0)%float = false.
Proof.
  assert (H : generateModelPrediction new_monitor 2 (Num (-4)) 0.25 1
              = Val 0%float) by (vm_compute; reflexivity).
  split; [exact H|].
  exact (prediction_never_negative new_monitor 2 (Num (-4)) 0.25 1 0 H).
Defined.

(** A prediction that is a number is at least [minValue], the larger of
    0 and half the base value. It is at most [maxValue], one and a half
    times the base value, when the two bounds are in order; when they
    are not (as with a base value of -4, where they are 0 and -6), the
    prediction is [minValue] itself, whatever the trend and the random
    draw. *)
Theorem prediction_within_band (t : monitor) (i : nat) (cv : value)
    (random sine b r : float) :
  base_number t i cv = Val b ->
  generateModelPrediction t i cv random sine = Val r ->
  PrimFloat.is_nan r = false ->
  (minValue_of b <=? r)%float = true /\
  ((minValue_of b <=? maxValue_of b)%float = true ->
   (r <=? maxValue_of b)%float = true) /\
  ((maxValue_of b <? minValue_of b)%float = true -> r = minValue_of b).
Proof.
  intros Hb. rewrite generateModelPrediction_eq, Hb. intros [= <-] Hnan.
  apply (clamp_band _ _ Hnan).
Qed.

Lemma prediction_within_band_witness :
  (minValue_of 10 <=? 10.25)%float = true /\
  ((minValue_of 10 <=? maxValue_of 10)%float = true ->
   (10.25 <=? maxValue_of 10)%float = true) /\
  ((maxValue_of 10 <? minValue_of 10)%float = true ->
   10.25%float = minValue_of 10).
Proof.
  apply (prediction_within_band new_monitor 2 (Num 10) 0.75 0.5 10 10.25);
    vm_compute; reflexivity.
Defined.

Example negative_reading_predicted_zero :
  generateModelPrediction new_monitor 2 (Num (-4)) 0.25 1 = Val 0%float /\
  generateModelPrediction new_monitor 2 (Num (-4)) 0.75 (-1) = Val 0%float.
Proof. split; vm_compute; reflexivity. Qed.

Lemma getDefaultValue_catalogue (i : nat) :
  match getDefaultValue i with
  | Val x => 1 <= i <= 31 /\ (0 <? x)%float = true
  | TypeError => i = 0 \/ 31 < i
  | NotModelled => False
  end.
Proof.
  destruct i as [|k]; [left; reflexivity|].
  destruct (decide (k < 31)) as [Hk|Hk].
  - do 31 (destruct k as [|k]; [vm_compute; split; [lia|reflexivity]|]). lia.
  - unfold getDefaultValue. rewrite lookup_ge_None_2; [right; lia|].
    change (length FEATURE_CONFIG) with 31. lia.
Qed.

(** With no current value and no usable history (none recorded, or a last
    reading that is 0, [NaN], empty or [null]), the prediction starts from
    the default of the feature's unit, which is positive; for a feature id
    outside the catalogue there is no unit to read and the call throws a
    [TypeError]. *)
Theorem prediction_without_reading (t : monitor) (i : nat) (cv : value)
    (random sine : float) :
  absent cv = true -> truthy (getHistoricalValue t i) = false ->
  base_number t i cv = getDefaultValue i /\
  (1 <= i <= 31 ->
   exists b r, getDefaultValue i = Val b /\ (0 <? b)%float = true /\
               generateModelPrediction t i cv random sine = Val r) /\
  (i = 0 \/ 31 < i ->
   generateModelPrediction t i cv random sine = TypeError).
Proof.
  intros Hcv Hh.
  assert (Hb : base_number t i cv = getDefaultValue i).
  { unfold base_number, baseValue_of. rewrite Hcv, Hh. simpl.
    destruct (getDefaultValue i); reflexivity. }
  rewrite generateModelPrediction_eq, Hb.
  pose proof (getDefaultValue_catalogue i) as Hd.
  split; [reflexivity|]. split.
  - intros Hi. destruct (getDefaultValue i) as [x| |].
    + destruct Hd as [_ Hx]. eauto.
    + lia.
    + contradiction.
  - intros Hi. destruct (getDefaultValue i) as [x| |].
    + lia.
    + reflexivity.
    + contradiction.
Qed.

Lemma prediction_without_reading_witness :
  base_number (set_lastData (Arr [Num 3; Num 0]) new_monitor) 2 Null
  = getDefaultValue 2.
Proof.
  apply (proj1 (prediction_without_reading
                  (set_lastData (Arr [Num 3; Num 0]) new_monitor) 2 Null
                  0.5 0 eq_refl eq_refl)).
Defined.
